(** * Address-set references of the OVN controller

    A shallow embedding of [go-controller/pkg/ovn/address_set.go]: the
    [AddressSetRef] structure, its constructor [newAddressSetRef] and its
    parser [parseAddressSetRef], together with the two functions of Go's
    [strings] package they rely on; then the functions of that file that
    drive [ovn-nbctl], those of [go-controller/pkg/ovn/gateway.go], and
    [nsHybridAnnotationChanged] of the hybrid overlay's master
    controller, as programs over the calls they make.

    Go strings are byte sequences, and so are the strings of the Standard
    Library (one [ascii] is one byte), so [string] is used as it is. *)

From Stdlib Require Import String Ascii List Bool Arith ZArith Lia.
Import ListNotations.
Local Open Scope string_scope.
Local Open Scope list_scope.

(** ** Go's [strings] package *)

(** [strings.Join(elems, sep)]: the elements in order with [sep] between
    two neighbours; the empty string for no element, the element itself
    for one. *)
Fixpoint Join (elems : list string) (sep : string) : string :=
  match elems with
  | [] => ""
  | e :: rest =>
      match rest with
      | [] => e
      | _ :: _ => e ++ sep ++ Join rest sep
      end
  end.

(** [strings.Split(s, sep)] for a separator of one byte, which is how the
    parser calls it: the pieces of [s] between the occurrences of [sep].
    A string without separator, the empty one too, is a single piece. *)
Fixpoint Split (s : string) (sep : ascii) : list string :=
  match s with
  | EmptyString => [EmptyString]
  | String c rest =>
      if Ascii.eqb c sep then EmptyString :: Split rest sep
      else
        match Split rest sep with
        | piece :: pieces => String c piece :: pieces
        | [] => [String c EmptyString]
        end
  end.

(** ** Go slices of strings

    A slice is [nil] or holds a sequence; the constructor tests its
    variadic argument against [nil], so the two empty slices are kept
    apart. A call without variadic arguments passes [nil]. *)
Definition slice : Type := option (list string).

Definition nil_slice : slice := None.

Definition is_nil (a : slice) : bool :=
  match a with
  | None => true
  | Some _ => false
  end.

(** The sequence a slice holds: what [append(s, a...)] adds and what a
    [range] loop visits. *)
Definition elems (a : slice) : list string :=
  match a with
  | None => []
  | Some l => l
  end.

(** [append(s, xs...)] on the sequence held. *)
Definition append (s xs : list string) : list string := s ++ xs.

(** [s[n:]] of a non-nil slice with [n <= len(s)] (every use below is
    under such a length test): never [nil], also when it is empty. *)
Definition slice_from (n : nat) (s : list string) : slice := Some (skipn n s).

(** [s[i]], under a test that makes [i] an index of [s]. *)
Definition index (s : list string) (i : nat) : string := nth i s "".

(** A component that can be joined with ['.'] and split again. *)
Fixpoint dotfree (s : string) : bool :=
  match s with
  | EmptyString => true
  | String c rest => negb (Ascii.eqb c ".") && dotfree rest
  end.

(** [strings.HasPrefix(s, prefix)]. *)
Definition HasPrefix (s prefix : string) : bool := String.prefix prefix s.

(** [s[n:]] of a string, under a test that makes [n <= len(s)]. *)
Fixpoint string_from (n : nat) (s : string) : string :=
  match n, s with
  | O, _ => s
  | S k, String _ rest => string_from k rest
  | S _, EmptyString => EmptyString
  end.

(** The number of bytes of the white-space rune that [s] starts with,
    [0] when it starts with none. White space is what [unicode.IsSpace]
    accepts: the six ASCII bytes of [strings.asciiSpace] (tab, line feed,
    vertical tab, form feed, carriage return, space), and in UTF-8
    U+0085 and U+00A0 (C2 85, C2 A0), U+1680 (E1 9A 80), U+2000 to U+200A,
    U+2028, U+2029, U+202F (E2 80 80..8A, A8, A9, AF), U+205F (E2 81 9F)
    and U+3000 (E3 80 80). *)
Definition spaceRune (s : string) : nat :=
  match s with
  | EmptyString => 0
  | String c rest =>
      let b := nat_of_ascii c in
      if (((9 <=? b) && (b <=? 13)) || (b =? 32))%nat then 1
      else if (b =? 194)%nat then
        match rest with
        | String d _ =>
            let b1 := nat_of_ascii d in
            if ((b1 =? 133) || (b1 =? 160))%nat then 2 else 0
        | EmptyString => 0
        end
      else if (b =? 225)%nat then
        match rest with
        | String d (String e _) =>
            if ((nat_of_ascii d =? 154) && (nat_of_ascii e =? 128))%nat
            then 3 else 0
        | _ => 0
        end
      else if (b =? 226)%nat then
        match rest with
        | String d (String e _) =>
            let b1 := nat_of_ascii d in
            let b2 := nat_of_ascii e in
            if ((b1 =? 128)
                && (((128 <=? b2) && (b2 <=? 138)) || (b2 =? 168)
                    || (b2 =? 169) || (b2 =? 175)))%nat
            then 3
            else if ((b1 =? 129) && (b2 =? 159))%nat then 3 else 0
        | _ => 0
        end
      else if (b =? 227)%nat then
        match rest with
        | String d (String e _) =>
            if ((nat_of_ascii d =? 128) && (nat_of_ascii e =? 128))%nat
            then 3 else 0
        | _ => 0
        end
      else 0
  end.

(** The pieces of [s] between its white-space runes, empty pieces
    included; [skip] bytes of a rune already met are still to pass. *)
Fixpoint cutSpaces (skip : nat) (s : string) : list string :=
  match s with
  | EmptyString => [EmptyString]
  | String c rest =>
      match skip with
      | S k => cutSpaces k rest
      | O =>
          match spaceRune s with
          | S k => EmptyString :: cutSpaces k rest
          | O =>
              match cutSpaces 0 rest with
              | piece :: pieces => String c piece :: pieces
              | [] => [String c EmptyString]
              end
          end
      end
  end.

(** [strings.Fields(s)]: the pieces of [s] around each run of white
    space, none of them empty. Go walks the bytes of an ASCII string and
    the runes of any other; a white-space rune starts with an ASCII byte
    or a UTF-8 lead byte, where the rune decoder always starts a rune,
    so both walks cut at the same places, those of [spaceRune]. *)
Definition Fields (s : string) : list string :=
  filter (fun piece => negb (piece =? "")) (cutSpaces 0 s).

(** A string without white space. *)
Fixpoint spaceless (s : string) : bool :=
  match s with
  | EmptyString => true
  | String _ rest => (spaceRune s =? 0)%nat && spaceless rest
  end.

(** The line feed and the double quote. *)
Definition newline : string := String (ascii_of_nat 10) EmptyString.
Definition dquote : string := String (ascii_of_nat 34) EmptyString.

(** ** The structure *)

Record AddressSetRef : Type := mkAddressSetRef {
  OwnerType : string;
  OwnerNamespace : string;
  OwnerName : string;
  IPv6 : bool;
  Args : slice;
  DisplayName : string;
  HashedName : string
}.

(** The components of a reference, with [Args] as the sequence it holds. *)
Definition components (r : AddressSetRef)
  : string * bool * string * string * list string :=
  (OwnerType r, IPv6 r, OwnerNamespace r, OwnerName r, elems (Args r)).

(** A digest that can be run, for closed instances of the constructor and
    the parser. *)
Definition tagged_digest (s : string) : string := String "a" s.

(** Two references of the package's test, under that digest: the network
    policy one and the namespace one with arguments. *)
Definition npRef : AddressSetRef :=
  {| OwnerType := "NetworkPolicy"; OwnerNamespace := "testing";
     OwnerName := "policy"; IPv6 := false; Args := Some ["ingress"; "1"];
     DisplayName := "testing.policy.ingress.1";
     HashedName := tagged_digest "testing.policy.ingress.1" |}.

Definition nsRefArgs : AddressSetRef :=
  {| OwnerType := "Namespace"; OwnerNamespace := "testing";
     OwnerName := ""; IPv6 := false; Args := Some ["blah"; "blah"];
     DisplayName := ".Namespace.v4.testing..blah.blah";
     HashedName := tagged_digest ".Namespace.v4.testing..blah.blah" |}.

(** ** Commands

    The controller drives OVN through [util.RunOVNNbctl], which runs
    [ovn-nbctl] with the arguments given and returns its standard
    output, its standard error and an error. A function of the
    controller is a program that issues such calls and goes on by what
    comes back. What the functions write to the log is left out. *)

(** A Go [error] that is not [nil], by its message. *)
Definition error : Type := string.

Record result : Type := mkResult {
  stdout : string;
  stderr : string;
  err : option error
}.

(** The calls to code defined elsewhere: the two runners of [ovn-nbctl],
    and [createLoadBalancerVIP], a method of the controller. The ports
    are [int32] values that are only passed on, here integers. *)
Inductive call : Type :=
  | RunOVNNbctl (args : list string)
  | RunOVNNbctlHA (args : list string)
  | createLoadBalancerVIP (loadBalancer vip : string) (port : Z)
      (ips : list string) (targetPort : Z).

Definition reply (c : call) : Type :=
  match c with
  | RunOVNNbctl _ => result
  | RunOVNNbctlHA _ => result
  | createLoadBalancerVIP _ _ _ _ _ => option error
  end.

Inductive prog (A : Type) : Type :=
  | Ret (a : A)
  | Do (c : call) (k : reply c -> prog A).

Arguments Ret {A} a.
Arguments Do {A} c k.

Fixpoint bind {A B : Type} (p : prog A) (f : A -> prog B) : prog B :=
  match p with
  | Ret a => f a
  | Do c k => Do c (fun r => bind (k r) f)
  end.

(** What answers the calls: any function of the call and of a state of
    the world outside, which it may change. *)
Definition handler (W : Type) : Type := forall c : call, W -> reply c * W.

(** A run of a program against a handler: the value returned, the world
    left, and the calls made, in order. *)
Fixpoint exec {W A : Type} (h : handler W) (p : prog A) (w : W)
  : A * W * list call :=
  match p with
  | Ret a => (a, w, [])
  | Do c k =>
      let (r, w1) := h c w in
      let '(a, w2, calls) := exec h (k r) w1 in
      (a, w2, c :: calls)
  end.

(** A handler without state that answers the two runners by a function
    of the arguments and never fails [createLoadBalancerVIP]. *)
Definition scripted (answer : list string -> result) : handler unit :=
  fun c w =>
    match c as c0 return reply c0 * unit with
    | RunOVNNbctl args => (answer args, w)
    | RunOVNNbctlHA args => (answer args, w)
    | createLoadBalancerVIP _ _ _ _ _ => (None, w)
    end.

(** ** Gateways, [go-controller/pkg/ovn/gateway.go] *)

Definition find_gateways : call :=
  RunOVNNbctlHA ["--data=bare"; "--no-heading"; "--columns=name"; "find";
                 "logical_router"; "options:chassis!=null"].

(** [getOvnGateways]: the routers listed, the standard error and the
    error of the command. *)
Definition getOvnGateways : prog (list string * string * option error) :=
  Do find_gateways (fun r => Ret (Fields (stdout r), stderr r, err r)).

Definition get_physical_ip (physicalGateway : string) : call :=
  RunOVNNbctlHA ["get"; "logical_router"; physicalGateway;
                 "external_ids:physical_ip"].

Definition getGatewayPhysicalIP (physicalGateway : string)
  : prog (string * option error) :=
  Do (get_physical_ip physicalGateway)
     (fun r =>
        match err r with
        | Some e => Ret ("", Some e)
        | None => Ret (stdout r, None)
        end).

Definition find_load_balancer (physicalGateway protocol : string) : call :=
  let externalIDKey := (protocol ++ "_lb_gateway_router")%string in
  RunOVNNbctlHA ["--data=bare"; "--no-heading"; "--columns=_uuid"; "find";
                 "load_balancer";
                 ("external_ids:" ++ externalIDKey ++ "="
                    ++ physicalGateway)%string].

Definition getGatewayLoadBalancer (physicalGateway protocol : string)
  : prog (string * option error) :=
  Do (find_load_balancer physicalGateway protocol)
     (fun r =>
        match err r with
        | Some e => Ret ("", Some e)
        | None => Ret (stdout r, None)
        end).

(** [createGatewaysVIPForGateways]: the loop, where every [continue]
    and the end of the body go on with the gateways left. *)
Fixpoint createGatewaysVIPForGateways (physicalGateways : list string)
    (protocol : string) (port targetPort : Z) (ips : list string)
  : prog (option error) :=
  match physicalGateways with
  | [] => Ret None
  | physicalGateway :: rest =>
      let continue :=
        createGatewaysVIPForGateways rest protocol port targetPort ips in
      bind (getGatewayPhysicalIP physicalGateway)
        (fun '(physicalIP, err1) =>
           match err1 with
           | Some _ => continue
           | None =>
               bind (getGatewayLoadBalancer physicalGateway protocol)
                 (fun '(loadBalancer, err2) =>
                    match err2 with
                    | Some _ => continue
                    | None =>
                        if loadBalancer =? "" then continue
                        else
                          Do (createLoadBalancerVIP loadBalancer physicalIP
                                port ips targetPort)
                             (fun _ => continue)
                    end)
           end)
  end.

Definition createGatewaysVIP (protocol : string) (port targetPort : Z)
    (ips : list string) : prog (option error) :=
  bind getOvnGateways
    (fun '(physicalGateways, _, err1) =>
       match err1 with
       | Some e => Ret (Some e)
       | None =>
           createGatewaysVIPForGateways physicalGateways protocol port
             targetPort ips
       end).

Definition createNodeVIP (nodeName protocol : string) (port targetPort : Z)
    (ips : list string) : prog (option error) :=
  let physicalGateway := ("GR_" ++ nodeName)%string in
  createGatewaysVIPForGateways [physicalGateway] protocol port targetPort ips.

(** The calls of a run that ask for the physical IP of a router, and
    those that create a VIP. *)
Definition asks_physical_ip (c : call) : bool :=
  match c with
  | RunOVNNbctlHA ("get" :: _) => true
  | _ => false
  end.

Definition creates_vip (c : call) : bool :=
  match c with
  | createLoadBalancerVIP _ _ _ _ _ => true
  | _ => false
  end.

(** ** Namespaces of the hybrid overlay,
    [go-controller/hybrid-overlay/pkg/controller/master.go] *)




Section HybridOverlay.

(** The two annotation keys, constants of the package [hotypes]. *)
Variables HybridOverlayExternalGw HybridOverlayVTEP : string.


End HybridOverlay.


(** A database that lists those two address sets, and a line that is
    none, whatever it is asked. *)
Definition listing : handler unit :=
  scripted (fun _ =>
    {| stdout := "name=testing.policy.ingress.1" ++ newline
                 ++ "name=.Namespace.v4.testing..blah.blah" ++ newline
                 ++ "name=.Namespace.v6.testing. name= other=x";
       stderr := "";
       err := None |}).

Definition listing_two : handler unit :=
  scripted (fun _ =>
    {| stdout := "name=testing.policy.ingress.1" ++ newline
                 ++ "name=.Namespace.v4.testing..blah.blah";
       stderr := "";
       err := None |}).

Section AddressSet.

(** Modelled from the spec: [hashForOVN], the digest behind [HashedName],
    is defined in another file of the package. The specification takes it
    as a pluggable pure function from strings to strings, the same for
    every reference; so it is a parameter here. *)
Variable hashForOVN : string -> string.

(** [newAddressSetRef]: a [*AddressSetRef], which is [Some] reference or
    [None] for Go's [nil] pointer. *)
Definition newAddressSetRef (ownerType : string) (ipv6 : bool)
    (ownerNamespace ownerName : string) (args : slice)
  : option AddressSetRef :=
  let nameParts : list string := [] in
  let nameParts :=
    if (ownerType =? "Namespace") && negb ipv6 && (ownerName =? "")
       && is_nil args
    then append nameParts [ownerNamespace]
    else if (ownerType =? "NetworkPolicy") && negb ipv6
    then
      let nameParts := append nameParts [ownerNamespace; ownerName] in
      append nameParts (elems args)
    else
      let nameParts := append nameParts [""; ownerType] in
      let nameParts :=
        if ipv6 then append nameParts ["v6"] else append nameParts ["v4"] in
      let nameParts := append nameParts [ownerNamespace; ownerName] in
      append nameParts (elems args) in
  let displayName := Join nameParts "." in
  Some {| OwnerType := ownerType;
          OwnerNamespace := ownerNamespace;
          OwnerName := ownerName;
          IPv6 := ipv6;
          Args := args;
          DisplayName := displayName;
          HashedName := hashForOVN displayName |}.

(** [parseAddressSetRef]: the reference read back from a display name,
    [None] ([nil]) on error. The fields no branch assigns keep Go's zero
    values. *)
Definition parseAddressSetRef (displayName : string) : option AddressSetRef :=
  let nameParts := Split displayName "." in
  if (5 <? List.length nameParts)%nat && (index nameParts 0 =? "") then
    Some {| OwnerType := index nameParts 1;
            OwnerNamespace := index nameParts 3;
            OwnerName := index nameParts 4;
            IPv6 := (index nameParts 2 =? "v6");
            Args := slice_from 5 nameParts;
            DisplayName := displayName;
            HashedName := hashForOVN displayName |}
  else if (1 <? List.length nameParts)%nat
          && negb (index nameParts 0 =? "") then
    Some {| OwnerType := "NetworkPolicy";
            OwnerNamespace := index nameParts 0;
            OwnerName := index nameParts 1;
            IPv6 := false;
            Args := slice_from 2 nameParts;
            DisplayName := displayName;
            HashedName := hashForOVN displayName |}
  else if (List.length nameParts =? 1)%nat
          && negb (index nameParts 0 =? "") then
    Some {| OwnerType := "Namespace";
            OwnerNamespace := index nameParts 0;
            OwnerName := "";
            IPv6 := false;
            Args := nil_slice;
            DisplayName := displayName;
            HashedName := hashForOVN displayName |}
  else None.

(** The tag of the address family in a tagged display name. *)
Definition familyTag (ipv6 : bool) : string := if ipv6 then "v6" else "v4".

(** The three layouts of a display name. *)
Inductive layout : Type :=
  | Bare      (* the namespace alone *)
  | Compact   (* namespace.name.args... *)
  | Tagged.   (* .type.family.namespace.name.args... *)

(** The layout the constructor chooses, by its two tests. *)
Definition layout_of (ownerType : string) (ipv6 : bool) (ownerName : string)
    (args : slice) : layout :=
  if (ownerType =? "Namespace") && negb ipv6 && (ownerName =? "")
     && is_nil args
  then Bare
  else if (ownerType =? "NetworkPolicy") && negb ipv6 then Compact
  else Tagged.

(** A reference that one of the two functions returns. *)
Definition produced (ref : AddressSetRef) : Prop :=
  (exists ownerType ipv6 ownerNamespace ownerName args,
     newAddressSetRef ownerType ipv6 ownerNamespace ownerName args
     = Some ref) \/
  (exists displayName, parseAddressSetRef displayName = Some ref).

(** The references that survive the way through the parser: components
    without '.', a namespace that is not empty in the two untagged
    layouts, an argument at least in the tagged one. *)
Definition readable (ownerType : string) (ipv6 : bool)
    (ownerNamespace ownerName : string) (args : slice) : bool :=
  dotfree ownerType && dotfree ownerNamespace && dotfree ownerName
  && forallb dotfree (elems args)
  && match layout_of ownerType ipv6 ownerName args with
     | Tagged => negb (List.length (elems args) =? 0)%nat
     | _ => negb (ownerNamespace =? "")
     end.

(** ** The address sets of the database *)

(** The loop of [forEachAddressSet] over the fields of the output; the
    state [S] is what the callback keeps between its calls. *)
Fixpoint eachField {S : Type} (iteratorFn : AddressSetRef -> S -> prog S)
    (fields : list string) (s : S) : prog S :=
  match fields with
  | [] => Ret s
  | addrSet :: rest =>
      if negb (HasPrefix addrSet "name=") then eachField iteratorFn rest s
      else
        match parseAddressSetRef (string_from 5 addrSet) with
        | None => eachField iteratorFn rest s
        | Some ref =>
            bind (iteratorFn ref s) (fun s' => eachField iteratorFn rest s')
        end
  end.

(** [forEachAddressSet]: the callback's state at the end and the error
    returned ([None] for [nil]). *)
Definition forEachAddressSet {S : Type}
    (iteratorFn : AddressSetRef -> S -> prog S) (s : S)
  : prog (S * option error) :=
  Do (RunOVNNbctl ["--data=bare"; "--no-heading"; "--columns=external_ids";
                   "find"; "address_set"])
     (fun r =>
        match err r with
        | Some e => Ret (s, Some e)
        | None =>
            bind (eachField iteratorFn (Fields (stdout r)) s)
                 (fun s' => Ret (s', None))
        end).

Definition addToAddressSet (ref : AddressSetRef) (address : string)
  : prog unit :=
  Do (RunOVNNbctl ["add"; "address_set"; HashedName ref; "addresses";
                   (dquote ++ address ++ dquote)%string])
     (fun _ => Ret tt).

Definition removeFromAddressSet (ref : AddressSetRef) (address : string)
  : prog unit :=
  Do (RunOVNNbctl ["remove"; "address_set"; HashedName ref; "addresses";
                   (dquote ++ address ++ dquote)%string])
     (fun _ => Ret tt).

Definition createAddressSet (ref : AddressSetRef) (addresses : list string)
  : prog unit :=
  Do (RunOVNNbctl ["--data=bare"; "--no-heading"; "--columns=_uuid"; "find";
                   "address_set"; ("name=" ++ HashedName ref)%string])
     (fun r =>
        match err r with
        | Some _ => Ret tt
        | None =>
            let addressSet := stdout r in
            if negb (addressSet =? "")
               && (List.length addresses =? 0)%nat
            then
              Do (RunOVNNbctl ["clear"; "address_set"; HashedName ref;
                               "addresses"])
                 (fun _ => Ret tt)
            else
              let ips :=
                (dquote ++ Join addresses (dquote ++ " " ++ dquote)
                   ++ dquote)%string in
              if negb (addressSet =? "") then
                Do (RunOVNNbctl ["set"; "address_set"; HashedName ref;
                                 ("addresses=" ++ ips)%string])
                   (fun _ => Ret tt)
              else if (List.length addresses =? 0)%nat then
                Do (RunOVNNbctl
                      ["create"; "address_set";
                       ("name=" ++ HashedName ref)%string;
                       ("external-ids:name=" ++ DisplayName ref)%string])
                   (fun _ => Ret tt)
              else
                Do (RunOVNNbctl
                      ["create"; "address_set";
                       ("name=" ++ HashedName ref)%string;
                       ("external-ids:name=" ++ DisplayName ref)%string;
                       ("addresses=" ++ ips)%string])
                   (fun _ => Ret tt)
        end).

Definition deleteAddressSet (ref : AddressSetRef) : prog unit :=
  Do (RunOVNNbctl ["--if-exists"; "destroy"; "address_set"; HashedName ref])
     (fun _ => Ret tt).

(** The references in a list of fields: those of the fields that start
    with "name=" and whose rest parses. *)
Fixpoint listed (fields : list string) : list AddressSetRef :=
  match fields with
  | [] => []
  | addrSet :: rest =>
      if HasPrefix addrSet "name=" then
        match parseAddressSetRef (string_from 5 addrSet) with
        | Some ref => ref :: listed rest
        | None => listed rest
        end
      else listed rest
  end.

(** The callback on each reference of a list in turn. *)
Fixpoint eachRef {S : Type} (iteratorFn : AddressSetRef -> S -> prog S)
    (refs : list AddressSetRef) (s : S) : prog S :=
  match refs with
  | [] => Ret s
  | ref :: rest => bind (iteratorFn ref s) (fun s' => eachRef iteratorFn rest s')
  end.

(** A callback that only notes the references it is given. *)
Definition note (ref : AddressSetRef) (seen : list AddressSetRef)
  : prog (list AddressSetRef) :=
  Ret (seen ++ [ref]).

(** What it takes for [forEachAddressSet] to find a reference again: the
    constructor made it, readable, and its display name has no white
    space. *)
Definition findable (ref : AddressSetRef) : Prop :=
  spaceless (DisplayName ref) = true /\
  exists ownerType ipv6 ownerNamespace ownerName args,
    readable ownerType ipv6 ownerNamespace ownerName args = true /\
    newAddressSetRef ownerType ipv6 ownerNamespace ownerName args = Some ref.

(** The field that lists an address set: its display name under the key
    "name" of the external ids. *)
Definition name_field (ref : AddressSetRef) : string :=
  "name=" ++ DisplayName ref.

(** The command of [deleteAddressSet]. *)
Definition destroy_address_set (hashedName : string) : call :=
  RunOVNNbctl ["--if-exists"; "destroy"; "address_set"; hashedName].

(** The command of [forEachAddressSet]. *)
Definition find_address_sets : call :=
  RunOVNNbctl ["--data=bare"; "--no-heading"; "--columns=external_ids";
               "find"; "address_set"].

(** ** Splitting what was joined *)

Lemma Split_not_nil (s : string) (sep : ascii) : Split s sep <> [].
Proof.
  destruct s as [|c rest]; simpl; [discriminate|].
  destruct (Ascii.eqb c sep); [discriminate|].
  destruct (Split rest sep); discriminate.
Qed.

Lemma Split_dotfree (p : string) :
  dotfree p = true -> Split p "." = [p].
Proof.
  induction p as [|c rest IH]; simpl; [reflexivity|].
  intros H. apply andb_prop in H as [Hc Hrest].
  apply negb_true_iff in Hc. rewrite Hc, (IH Hrest). reflexivity.
Qed.

Lemma Split_piece (p rest : string) :
  dotfree p = true ->
  Split (p ++ String "." rest) "." = p :: Split rest ".".
Proof.
  induction p as [|c p' IH]; simpl; [reflexivity|].
  intros H. apply andb_prop in H as [Hc Hp'].
  apply negb_true_iff in Hc. rewrite Hc, (IH Hp'). reflexivity.
Qed.

Lemma Join_cons2 (p q : string) (qs : list string) (sep : string) :
  Join (p :: q :: qs) sep = (p ++ sep ++ Join (q :: qs) sep)%string.
Proof. reflexivity. Qed.

Lemma Split_Join (parts : list string) :
  parts <> [] ->
  forallb dotfree parts = true ->
  Split (Join parts ".") "." = parts.
Proof.
  induction parts as [|p ps IH]; [congruence|].
  intros _ H. simpl in H. apply andb_prop in H as [Hp Hps].
  destruct ps as [|q qs].
  - simpl. now apply Split_dotfree.
  - rewrite Join_cons2. change ("." ++ Join (q :: qs) ".")%string
      with (String "." (Join (q :: qs) ".")).
    rewrite (Split_piece _ _ Hp), IH; [reflexivity | discriminate | exact Hps].
Qed.

(** ** The constructor *)

(** The display name by layout, with the list the constructor joins. *)
Lemma newAddressSetRef_DisplayName (ownerType : string) (ipv6 : bool)
    (ownerNamespace ownerName : string) (args : slice) :
  exists ref,
    newAddressSetRef ownerType ipv6 ownerNamespace ownerName args = Some ref /\
    OwnerType ref = ownerType /\ IPv6 ref = ipv6 /\
    OwnerNamespace ref = ownerNamespace /\ OwnerName ref = ownerName /\
    Args ref = args /\
    HashedName ref = hashForOVN (DisplayName ref) /\
    DisplayName ref =
      match layout_of ownerType ipv6 ownerName args with
      | Bare => Join [ownerNamespace] "."
      | Compact => Join (ownerNamespace :: ownerName :: elems args) "."
      | Tagged =>
          Join ("" :: ownerType :: familyTag ipv6 :: ownerNamespace
                   :: ownerName :: elems args) "."
      end.
Proof.
  eexists. split; [reflexivity|]. cbn [OwnerType IPv6 OwnerNamespace OwnerName
    Args HashedName DisplayName]. repeat (split; [reflexivity|]).
  unfold layout_of.
  destruct ((ownerType =? "Namespace") && negb ipv6 && (ownerName =? "")
            && is_nil args); [reflexivity|].
  destruct ((ownerType =? "NetworkPolicy") && negb ipv6); [reflexivity|].
  destruct ipv6; reflexivity.
Qed.

Lemma layout_of_Bare (ownerType : string) (ipv6 : bool) (ownerName : string)
    (args : slice) :
  layout_of ownerType ipv6 ownerName args = Bare <->
  ownerType = "Namespace" /\ ipv6 = false /\ ownerName = "" /\
  args = nil_slice.
Proof.
  unfold layout_of, nil_slice. split.
  - destruct (String.eqb_spec ownerType "Namespace"), ipv6,
      (String.eqb_spec ownerName ""), args; simpl; try discriminate;
      try (destruct (_ =? "NetworkPolicy"); discriminate); now auto.
  - intros (-> & -> & -> & ->). reflexivity.
Qed.

Lemma layout_of_Compact (ownerType : string) (ipv6 : bool)
    (ownerName : string) (args : slice) :
  layout_of ownerType ipv6 ownerName args = Compact <->
  layout_of ownerType ipv6 ownerName args <> Bare /\
  ownerType = "NetworkPolicy" /\ ipv6 = false.
Proof.
  unfold layout_of.
  destruct ((ownerType =? "Namespace") && negb ipv6 && (ownerName =? "")
            && is_nil args).
  - split; [discriminate | intros [H _]; congruence].
  - destruct (String.eqb_spec ownerType "NetworkPolicy"), ipv6; simpl;
      split; try discriminate; try (intros (_ & ? & ?); congruence).
    intros _. repeat split; [discriminate | assumption].
Qed.

(** C2. The constructor applies three rules in order, first match wins:
    the display name of a "Namespace" owner, not IPv6, with an empty
    owner name and [nil] arguments is the owner namespace; otherwise that
    of a "NetworkPolicy" owner, not IPv6, is the namespace, the name and
    the arguments joined with '.'; otherwise it is the empty string, the
    owner type, "v6" or "v4", the namespace, the name and the arguments
    joined with '.', which starts with '.'. *)
Theorem newAddressSetRef_three_rules (ownerType : string) (ipv6 : bool)
    (ownerNamespace ownerName : string) (args : slice) :
  exists ref,
    newAddressSetRef ownerType ipv6 ownerNamespace ownerName args = Some ref /\
    let bare := ownerType = "Namespace" /\ ipv6 = false /\ ownerName = "" /\
                args = nil_slice in
    let compact := ownerType = "NetworkPolicy" /\ ipv6 = false in
    (bare -> DisplayName ref = ownerNamespace) /\
    (~ bare -> compact ->
       DisplayName ref
       = Join (ownerNamespace :: ownerName :: elems args) ".") /\
    (~ bare -> ~ compact ->
       DisplayName ref =
         Join ("" :: ownerType :: (if ipv6 then "v6" else "v4")
                  :: ownerNamespace :: ownerName :: elems args) "." /\
       exists rest, DisplayName ref = String "." rest).
Proof.
  destruct (newAddressSetRef_DisplayName ownerType ipv6 ownerNamespace
              ownerName args) as (ref & Href & _ & _ & _ & _ & _ & _ & Hname).
  exists ref. split; [exact Href|]. cbv zeta.
  pose proof (layout_of_Bare ownerType ipv6 ownerName args) as HB.
  pose proof (layout_of_Compact ownerType ipv6 ownerName args) as HC.
  destruct (layout_of ownerType ipv6 ownerName args) eqn:L.
  - assert (Hb : ownerType = "Namespace" /\ ipv6 = false /\ ownerName = "" /\
                 args = nil_slice) by now apply HB.
    split; [intros _; exact Hname|].
    split; intros Hn; now destruct Hn.
  - assert (Hc : ownerType = "NetworkPolicy" /\ ipv6 = false) by now apply HC.
    split; [intros Hb; apply HB in Hb; discriminate|].
    split; [intros _ _; exact Hname|].
    intros _ Hn. now destruct Hn.
  - split; [intros Hb; apply HB in Hb; discriminate|].
    split.
    + intros _ Hc. assert (Tagged = Compact) by
        (apply HC; split; [discriminate | exact Hc]). discriminate.
    + intros _ _. unfold familyTag in Hname. split; [exact Hname|].
      rewrite Hname. eexists. rewrite Join_cons2. reflexivity.
Qed.

(** ** The parser *)

(** The pieces of a display name by number, up to six: the parser's tests
    then compute. *)
Ltac by_pieces displayName :=
  unfold parseAddressSetRef, index, slice_from, nil_slice;
  pose proof (Split_not_nil displayName ".");
  destruct (Split displayName ".")
    as [|p0 [|p1 [|p2 [|p3 [|p4 [|p5 more]]]]]]; [congruence|..];
  cbn [List.length nth nth_error skipn Nat.ltb Nat.leb Nat.eqb andb];
  destruct (String.eqb_spec p0 ""); cbn [andb negb].

(** The parser gives up exactly on a display name whose first piece is
    empty and that has at most five pieces. *)
Lemma parseAddressSetRef_None_iff (displayName : string) :
  parseAddressSetRef displayName = None <->
  nth_error (Split displayName ".") 0 = Some "" /\
  List.length (Split displayName ".") <= 5.
Proof.
  by_pieces displayName; subst; split;
    try discriminate; try (intros [Hp Hl]; try (simpl in Hl; lia); congruence);
    intros _; (split; [reflexivity | simpl; lia]).
Qed.

(** C3. The parser splits the display name at '.' and classifies the
    pieces in this order: more than 5 pieces, the first one empty, is the
    tagged layout (owner type piece 1, IPv6 exactly when piece 2 is "v6",
    namespace piece 3, name piece 4, arguments from piece 5 on); else
    more than 1 piece, the first one not empty, is a "NetworkPolicy",
    not IPv6, with namespace piece 0, name piece 1 and arguments from
    piece 2 on; else exactly 1 piece, not empty, is a "Namespace", not
    IPv6, with namespace piece 0, an empty name and no arguments. *)
Theorem parseAddressSetRef_classification (displayName : string) :
  let parts := Split displayName "." in
  let tagged := 5 < List.length parts /\ nth_error parts 0 = Some "" in
  let compact := 1 < List.length parts /\ nth_error parts 0 <> Some "" in
  let bare := List.length parts = 1 /\ nth_error parts 0 <> Some "" in
  (tagged ->
     exists ref, parseAddressSetRef displayName = Some ref /\
       nth_error parts 1 = Some (OwnerType ref) /\
       (IPv6 ref = true <-> nth_error parts 2 = Some "v6") /\
       nth_error parts 3 = Some (OwnerNamespace ref) /\
       nth_error parts 4 = Some (OwnerName ref) /\
       elems (Args ref) = skipn 5 parts) /\
  (~ tagged -> compact ->
     exists ref, parseAddressSetRef displayName = Some ref /\
       OwnerType ref = "NetworkPolicy" /\ IPv6 ref = false /\
       nth_error parts 0 = Some (OwnerNamespace ref) /\
       nth_error parts 1 = Some (OwnerName ref) /\
       elems (Args ref) = skipn 2 parts) /\
  (~ tagged -> ~ compact -> bare ->
     exists ref, parseAddressSetRef displayName = Some ref /\
       OwnerType ref = "Namespace" /\ IPv6 ref = false /\
       nth_error parts 0 = Some (OwnerNamespace ref) /\
       OwnerName ref = "" /\ elems (Args ref) = []).
Proof.
  cbv zeta. split; [|split].
  - intros [Hl H0]. by_pieces displayName; simpl in Hl; try lia;
      [|simpl in H0; congruence].
    eexists. split; [reflexivity|]. cbn. repeat split; try reflexivity.
    + intros Hv. apply String.eqb_eq in Hv. now subst.
    + intros Hv. injection Hv as ->. reflexivity.
  - intros _ [Hl H0]. by_pieces displayName; simpl in Hl; try lia;
      try (subst; simpl in H0; congruence);
      (eexists; split; [reflexivity|]; cbn; repeat split; reflexivity).
  - intros _ _ [Hl H0]. by_pieces displayName; simpl in Hl; try lia;
      try (subst; simpl in H0; congruence).
    eexists; split; [reflexivity|]; cbn; repeat split; reflexivity.
Qed.

(** C4, as the parser has it. The parser returns [nil] on the empty
    string and on every display name whose first piece is empty and that
    has fewer than 5 pieces; it returns a reference whenever the first
    piece is not empty or there are more than 5 pieces. *)
Theorem parseAddressSetRef_nil (displayName : string) :
  let parts := Split displayName "." in
  parseAddressSetRef "" = None /\
  (nth_error parts 0 = Some "" /\ List.length parts < 5 ->
     parseAddressSetRef displayName = None) /\
  (nth_error parts 0 <> Some "" \/ 5 < List.length parts ->
     exists ref, parseAddressSetRef displayName = Some ref).
Proof.
  cbv zeta. split; [reflexivity|]. split.
  - intros [H0 Hl]. apply parseAddressSetRef_None_iff. split; [exact H0 | lia].
  - intros H. destruct (parseAddressSetRef displayName) as [ref|] eqn:E;
      [now exists ref|].
    apply parseAddressSetRef_None_iff in E as [H0 Hl].
    destruct H as [H | H]; [congruence | lia].
Qed.

Lemma parseAddressSetRef_HashedName_of (displayName : string)
    (ref : AddressSetRef) :
  parseAddressSetRef displayName = Some ref ->
  DisplayName ref = displayName /\
  HashedName ref = hashForOVN displayName.
Proof.
  unfold parseAddressSetRef.
  repeat match goal with
         | |- context [if ?b then _ else _] => destruct b
         end; intros E; inversion E; split; reflexivity.
Qed.

(** C5, as the parser has it. Every reference the parser returns carries
    the display name it was given and, as hashed name, the digest of
    that display name; on error the parser returns [nil], which has no
    hashed name to read. *)
Theorem parseAddressSetRef_HashedName (displayName : string)
    (ref : AddressSetRef) :
  parseAddressSetRef displayName = Some ref ->
  DisplayName ref = displayName /\
  HashedName ref = hashForOVN displayName.
Proof. apply parseAddressSetRef_HashedName_of. Qed.

(** C9. The parser does not check the family piece: for a display name
    of the tagged layout it returns a reference, whose IPv6 flag is set
    exactly when piece 2 is "v6"; any other piece there ("v4", "v5", the
    empty string) clears the flag and is no error. *)
Theorem parseAddressSetRef_family_unchecked (displayName : string) :
  5 < List.length (Split displayName ".") ->
  nth_error (Split displayName ".") 0 = Some "" ->
  exists ref, parseAddressSetRef displayName = Some ref /\
    (IPv6 ref = true <-> nth_error (Split displayName ".") 2 = Some "v6") /\
    (IPv6 ref = false <-> nth_error (Split displayName ".") 2 <> Some "v6").
Proof.
  by_pieces displayName; intros Hl H0; simpl in Hl; try lia;
    [|simpl in H0; congruence].
  eexists. split; [reflexivity|]. cbn [IPv6].
  destruct (String.eqb_spec p2 "v6") as [->|Hv]; repeat split;
    try congruence; intros _; congruence.
Qed.

(** C10. A reference the parser returns for a display name it takes as
    tagged (first piece empty) has at least one argument: that layout
    needs more than 5 pieces, and the arguments are the pieces from the
    sixth on. *)
Theorem parseAddressSetRef_tagged_has_args (displayName : string)
    (ref : AddressSetRef) :
  parseAddressSetRef displayName = Some ref ->
  nth_error (Split displayName ".") 0 = Some "" ->
  5 < List.length (Split displayName ".") /\
  exists arg rest, Args ref = Some (arg :: rest) /\
    arg :: rest = skipn 5 (Split displayName ".").
Proof.
  intros Href H0.
  assert (Hl : 5 < List.length (Split displayName ".")).
  { destruct (Nat.lt_ge_cases 5 (List.length (Split displayName ".")))
      as [Hl | Hl]; [exact Hl|].
    assert (parseAddressSetRef displayName = None) by
      (apply parseAddressSetRef_None_iff; now split).
    congruence. }
  split; [exact Hl|]. revert Href H0 Hl.
  by_pieces displayName; intros Href H0 Hl; simpl in Hl; try lia;
    [|simpl in H0; congruence].
  inversion Href. cbn. now exists p5, more.
Qed.

(** What the parser returns on each shape of the pieces. *)
Lemma parseAddressSetRef_tagged (displayName p1 p2 p3 p4 p5 : string)
    (more : list string) :
  Split displayName "." = "" :: p1 :: p2 :: p3 :: p4 :: p5 :: more ->
  parseAddressSetRef displayName =
  Some {| OwnerType := p1; OwnerNamespace := p3; OwnerName := p4;
          IPv6 := (p2 =? "v6"); Args := Some (p5 :: more);
          DisplayName := displayName;
          HashedName := hashForOVN displayName |}.
Proof.
  intros E. unfold parseAddressSetRef. rewrite E. reflexivity.
Qed.

Lemma parseAddressSetRef_compact (displayName p0 p1 : string)
    (more : list string) :
  Split displayName "." = p0 :: p1 :: more -> p0 <> "" ->
  parseAddressSetRef displayName =
  Some {| OwnerType := "NetworkPolicy"; OwnerNamespace := p0;
          OwnerName := p1; IPv6 := false; Args := Some more;
          DisplayName := displayName;
          HashedName := hashForOVN displayName |}.
Proof.
  intros E Hp0. apply String.eqb_neq in Hp0.
  unfold parseAddressSetRef, index, slice_from. rewrite E.
  cbn [nth skipn]. rewrite Hp0, andb_false_r. reflexivity.
Qed.

Lemma parseAddressSetRef_bare (displayName p0 : string) :
  Split displayName "." = [p0] -> p0 <> "" ->
  parseAddressSetRef displayName =
  Some {| OwnerType := "Namespace"; OwnerNamespace := p0;
          OwnerName := ""; IPv6 := false; Args := None;
          DisplayName := displayName;
          HashedName := hashForOVN displayName |}.
Proof.
  intros E Hp0. apply String.eqb_neq in Hp0.
  unfold parseAddressSetRef, index. rewrite E.
  cbn [nth List.length]. rewrite Hp0. reflexivity.
Qed.

(** ** Both directions *)

(** C1, as the code has it. For components without '.', with a non-empty
    owner namespace when the display name is in one of the two untagged
    layouts and with at least one argument when it is tagged, parsing
    the display name the constructor made gives back the owner type,
    the family, the namespace, the name and the sequence of arguments
    (and the same display and hashed names). *)
Theorem parse_new_roundtrip (ownerType : string) (ipv6 : bool)
    (ownerNamespace ownerName : string) (args : slice) :
  dotfree ownerType = true ->
  dotfree ownerNamespace = true ->
  dotfree ownerName = true ->
  forallb dotfree (elems args) = true ->
  (layout_of ownerType ipv6 ownerName args <> Tagged ->
     ownerNamespace <> "") ->
  (layout_of ownerType ipv6 ownerName args = Tagged -> elems args <> []) ->
  exists ref ref',
    newAddressSetRef ownerType ipv6 ownerNamespace ownerName args = Some ref /\
    parseAddressSetRef (DisplayName ref) = Some ref' /\
    OwnerType ref' = ownerType /\
    IPv6 ref' = ipv6 /\
    OwnerNamespace ref' = ownerNamespace /\
    OwnerName ref' = ownerName /\
    elems (Args ref') = elems args /\
    DisplayName ref' = DisplayName ref /\
    HashedName ref' = HashedName ref.
Proof.
  intros Dty Dns Dnm Dargs Hns Hargs.
  destruct (newAddressSetRef_DisplayName ownerType ipv6 ownerNamespace
              ownerName args) as (ref & Href & _ & _ & _ & _ & _ & Hh & Hname).
  exists ref.
  destruct (layout_of ownerType ipv6 ownerName args) eqn:L.
  - apply layout_of_Bare in L as (-> & -> & -> & ->).
    assert (E : Split (DisplayName ref) "." = [ownerNamespace]).
    { rewrite Hname. apply Split_Join; [discriminate|].
      simpl. now rewrite Dns. }
    eexists. split; [exact Href|].
    split; [apply (parseAddressSetRef_bare _ _ E); now apply Hns|].
    cbn. rewrite Hh. repeat split; reflexivity.
  - apply layout_of_Compact in L as (_ & -> & ->).
    assert (E : Split (DisplayName ref) "."
                = ownerNamespace :: ownerName :: elems args).
    { rewrite Hname. apply Split_Join; [discriminate|].
      simpl. now rewrite Dns, Dnm, Dargs. }
    eexists. split; [exact Href|].
    split; [apply (parseAddressSetRef_compact _ _ _ _ E); now apply Hns|].
    cbn. rewrite Hh. repeat split; reflexivity.
  - destruct (elems args) as [|arg rest] eqn:A; [now destruct Hargs|].
    assert (E : Split (DisplayName ref) "."
                = "" :: ownerType :: familyTag ipv6 :: ownerNamespace
                     :: ownerName :: arg :: rest).
    { rewrite Hname. apply Split_Join; [discriminate|].
      cbn [forallb] in *. rewrite Dty, Dns, Dnm, Dargs.
      now destruct ipv6. }
    eexists. split; [exact Href|].
    split; [apply (parseAddressSetRef_tagged _ _ _ _ _ _ _ E)|].
    cbn. rewrite Hh. repeat split; try reflexivity. now destruct ipv6.
Qed.

(** C6. The constructor is total: whatever the strings, empty ones too,
    it returns a reference, never [nil], with the components it was
    given, a display name and the digest of that display name as hashed
    name. Only the parser returns [nil]. *)
Theorem newAddressSetRef_total (ownerType : string) (ipv6 : bool)
    (ownerNamespace ownerName : string) (args : slice) :
  newAddressSetRef ownerType ipv6 ownerNamespace ownerName args <> None /\
  (exists ref,
     newAddressSetRef ownerType ipv6 ownerNamespace ownerName args
     = Some ref /\
     OwnerType ref = ownerType /\ IPv6 ref = ipv6 /\
     OwnerNamespace ref = ownerNamespace /\ OwnerName ref = ownerName /\
     Args ref = args /\
     HashedName ref = hashForOVN (DisplayName ref)) /\
  parseAddressSetRef "" = None.
Proof.
  split; [discriminate|]. split; [|reflexivity].
  destruct (newAddressSetRef_DisplayName ownerType ipv6 ownerNamespace
              ownerName args) as (ref & Href & H).
  exists ref. split; [exact Href|]. tauto.
Qed.

Lemma produced_HashedName (ref : AddressSetRef) :
  produced ref -> HashedName ref = hashForOVN (DisplayName ref).
Proof.
  intros [(ownerType & ipv6 & ownerNamespace & ownerName & args & H)
         | (displayName & H)].
  - destruct (newAddressSetRef_DisplayName ownerType ipv6 ownerNamespace
                ownerName args) as (ref0 & Href & _ & _ & _ & _ & _ & Hh & _).
    congruence.
  - apply parseAddressSetRef_HashedName_of in H as [Hd Hh]. congruence.
Qed.

(** C7. The hashed name depends on the display name alone: two
    references, each returned by the constructor or by the parser, with
    the same display name have the same hashed name, the digest of that
    display name. *)
Theorem HashedName_of_DisplayName_alone (ref1 ref2 : AddressSetRef) :
  produced ref1 -> produced ref2 ->
  DisplayName ref1 = DisplayName ref2 ->
  HashedName ref1 = HashedName ref2 /\
  HashedName ref1 = hashForOVN (DisplayName ref1).
Proof.
  intros H1 H2 E. rewrite (produced_HashedName ref1 H1),
    (produced_HashedName ref2 H2), E. split; reflexivity.
Qed.

(** C8. The constructor is not injective, even on components without
    '.': a "NetworkPolicy" reference, not IPv6, with an empty namespace,
    the name "Namespace" and the arguments "v4", "ns", "nm", "a" has the
    display name of the tagged "Namespace" reference of namespace "ns",
    name "nm" and argument "a". *)
Theorem newAddressSetRef_not_injective :
  exists (ownerType1 : string) (ipv61 : bool)
         (ownerNamespace1 ownerName1 : string) (args1 : slice)
         (ownerType2 : string) (ipv62 : bool)
         (ownerNamespace2 ownerName2 : string) (args2 : slice)
         (ref1 ref2 : AddressSetRef),
    (dotfree ownerType1 && dotfree ownerNamespace1 && dotfree ownerName1
     && forallb dotfree (elems args1) = true) /\
    (dotfree ownerType2 && dotfree ownerNamespace2 && dotfree ownerName2
     && forallb dotfree (elems args2) = true) /\
    (ownerType1, ipv61, ownerNamespace1, ownerName1, elems args1)
    <> (ownerType2, ipv62, ownerNamespace2, ownerName2, elems args2) /\
    newAddressSetRef ownerType1 ipv61 ownerNamespace1 ownerName1 args1
    = Some ref1 /\
    newAddressSetRef ownerType2 ipv62 ownerNamespace2 ownerName2 args2
    = Some ref2 /\
    DisplayName ref1 = DisplayName ref2.
Proof.
  exists "NetworkPolicy", false, "", "Namespace",
         (Some ["v4"; "ns"; "nm"; "a"]),
         "Namespace", false, "ns", "nm", (Some ["a"]).
  do 2 eexists. split; [reflexivity|]. split; [reflexivity|].
  split; [discriminate|]. split; [reflexivity|]. split; reflexivity.
Qed.

(** ** The package's test, [address_set_test.go] *)

Example test_nsRef :
  option_map DisplayName (newAddressSetRef "Namespace" false "testing" "" None)
  = Some "testing".
Proof. reflexivity. Qed.

Example test_nsRefNamed :
  option_map DisplayName
    (newAddressSetRef "Namespace" false "testing" "also-testing" None)
  = Some ".Namespace.v4.testing.also-testing".
Proof. reflexivity. Qed.

Example test_nsRefArgs :
  option_map DisplayName
    (newAddressSetRef "Namespace" false "testing" "" (Some ["blah"; "blah"]))
  = Some ".Namespace.v4.testing..blah.blah".
Proof. reflexivity. Qed.

Example test_nsRef6 :
  option_map DisplayName (newAddressSetRef "Namespace" true "testing" "" None)
  = Some ".Namespace.v6.testing.".
Proof. reflexivity. Qed.

Example test_npRef :
  option_map DisplayName
    (newAddressSetRef "NetworkPolicy" false "testing" "policy"
       (Some ["ingress"; "1"]))
  = Some "testing.policy.ingress.1".
Proof. reflexivity. Qed.

Example test_npRef6 :
  option_map DisplayName
    (newAddressSetRef "NetworkPolicy" true "testing" "policy"
       (Some ["ingress"; "1"]))
  = Some ".NetworkPolicy.v6.testing.policy.ingress.1".
Proof. reflexivity. Qed.

(** The tagged display names of the test that have no argument are made
    of five pieces, one short of what the parser asks of a tagged name:
    it returns [nil] on both, whether the owner name is empty or not. *)
Example parse_nsRefNamed :
  parseAddressSetRef ".Namespace.v4.testing.also-testing" = None.
Proof. reflexivity. Qed.

Example parse_nsRef6 :
  parseAddressSetRef ".Namespace.v6.testing." = None.
Proof. reflexivity. Qed.

Example parse_nsRefArgs :
  option_map components (parseAddressSetRef ".Namespace.v4.testing..blah.blah")
  = Some ("Namespace", false, "testing", "", ["blah"; "blah"]).
Proof. reflexivity. Qed.

(** ** More on the two directions *)

Lemma Join_cons_head (c : ascii) (p : string) (ps : list string)
    (sep : string) :
  Join (String c p :: ps) sep = String c (Join (p :: ps) sep).
Proof. destruct ps; reflexivity. Qed.

(** Joining the pieces of a split gives the string back, whatever it is. *)
Lemma Join_Split (s : string) : Join (Split s ".") "." = s.
Proof.
  induction s as [|c rest IH]; [reflexivity|]. simpl.
  pose proof (Split_not_nil rest ".") as Hne.
  destruct (Ascii.eqb_spec c ".") as [->|Hc].
  - destruct (Split rest ".") as [|p ps]; [congruence|].
    rewrite Join_cons2, IH. reflexivity.
  - destruct (Split rest ".") as [|p ps]; [congruence|].
    rewrite Join_cons_head, IH. reflexivity.
Qed.

Lemma Split_pieces_dotfree (s : string) :
  forallb dotfree (Split s ".") = true.
Proof.
  induction s as [|c rest IH]; [reflexivity|]. simpl.
  destruct (Ascii.eqb c ".") eqn:Hc; [exact IH|].
  destruct (Split rest ".") as [|p ps]; simpl in *.
  - now rewrite Hc.
  - now rewrite Hc.
Qed.

(** The reference the constructor returns, by layout. *)
Lemma newAddressSetRef_layout (ownerType : string) (ipv6 : bool)
    (ownerNamespace ownerName : string) (args : slice) :
  newAddressSetRef ownerType ipv6 ownerNamespace ownerName args =
  let displayName :=
    match layout_of ownerType ipv6 ownerName args with
    | Bare => ownerNamespace
    | Compact => Join (ownerNamespace :: ownerName :: elems args) "."
    | Tagged =>
        Join ("" :: ownerType :: familyTag ipv6 :: ownerNamespace
                 :: ownerName :: elems args) "."
    end in
  Some {| OwnerType := ownerType; OwnerNamespace := ownerNamespace;
          OwnerName := ownerName; IPv6 := ipv6; Args := args;
          DisplayName := displayName;
          HashedName := hashForOVN displayName |}.
Proof.
  unfold newAddressSetRef, layout_of.
  destruct ((ownerType =? "Namespace") && negb ipv6 && (ownerName =? "")
            && is_nil args); [reflexivity|].
  destruct ((ownerType =? "NetworkPolicy") && negb ipv6); [reflexivity|].
  destruct ipv6; reflexivity.
Qed.

(** X1. Building a reference again from what the parser returned gives
    the very same reference, display name and hashed name included,
    for every display name of the two untagged layouts; for a tagged
    one, when its family piece is "v6", or is "v4" with an owner type
    other than "NetworkPolicy". *)
Theorem new_of_parsed (displayName : string) (ref : AddressSetRef) :
  parseAddressSetRef displayName = Some ref ->
  (nth_error (Split displayName ".") 0 = Some "" ->
   nth_error (Split displayName ".") 2 = Some "v6" \/
   (nth_error (Split displayName ".") 2 = Some "v4" /\
    nth_error (Split displayName ".") 1 <> Some "NetworkPolicy")) ->
  newAddressSetRef (OwnerType ref) (IPv6 ref) (OwnerNamespace ref)
    (OwnerName ref) (Args ref) = Some ref.
Proof.
  pose proof (Join_Split displayName) as HJ. revert HJ.
  by_pieces displayName; intros HJ Href Hfam; inversion Href as [Hr];
    clear Href; rewrite newAddressSetRef_layout;
    cbn [OwnerType IPv6 OwnerNamespace OwnerName Args];
    try (cbn; cbn in HJ; now rewrite HJ).
  (* six pieces or more, the first one empty *)
  subst p0. unfold layout_of. cbn [is_nil]. rewrite andb_false_r.
  destruct (Hfam eq_refl) as [Hv | [Hv Hty]]; cbn in Hv; injection Hv as ->.
  - cbn [String.eqb Ascii.eqb Bool.eqb negb]. rewrite andb_false_r.
    cbn zeta. cbn [familyTag elems]. now rewrite HJ.
  - assert (Hp1 : (p1 =? "NetworkPolicy") = false)
      by (apply String.eqb_neq; intros ->; now apply Hty).
    rewrite Hp1. cbn [andb]. cbn [String.eqb Ascii.eqb Bool.eqb].
    cbn zeta. cbn [familyTag elems]. now rewrite HJ.
Qed.

(** X2. No component of a reference the parser returns holds a '.'. *)
Theorem parsed_components_dotfree (displayName : string)
    (ref : AddressSetRef) :
  parseAddressSetRef displayName = Some ref ->
  dotfree (OwnerType ref) = true /\
  dotfree (OwnerNamespace ref) = true /\
  dotfree (OwnerName ref) = true /\
  forallb dotfree (elems (Args ref)) = true.
Proof.
  pose proof (Split_pieces_dotfree displayName) as HD. revert HD.
  by_pieces displayName; intros HD Href; inversion Href as [Hr]; clear Href;
    cbn [OwnerType OwnerNamespace OwnerName Args elems];
    cbn [forallb] in HD;
    repeat match goal with
           | H : _ && _ = true |- _ => apply andb_prop in H as [? ?]
           end;
    repeat split; cbn [forallb]; try reflexivity; try assumption;
    repeat (apply andb_true_intro; split); try reflexivity; assumption.
Qed.

(** What the parser reads in the display name of a readable reference. *)
Lemma parse_of_new (ownerType : string) (ipv6 : bool)
    (ownerNamespace ownerName : string) (args : slice) :
  readable ownerType ipv6 ownerNamespace ownerName args = true ->
  exists ref ref',
    newAddressSetRef ownerType ipv6 ownerNamespace ownerName args = Some ref /\
    parseAddressSetRef (DisplayName ref) = Some ref' /\
    components ref' = (ownerType, ipv6, ownerNamespace, ownerName, elems args)
    /\ DisplayName ref' = DisplayName ref /\ HashedName ref' = HashedName ref.
Proof.
  unfold readable. intros H.
  apply andb_prop in H as [H Hl]. apply andb_prop in H as [H Dargs].
  apply andb_prop in H as [H Dnm]. apply andb_prop in H as [Dty Dns].
  rewrite newAddressSetRef_layout. cbv zeta.
  destruct (layout_of ownerType ipv6 ownerName args) eqn:L.
  - apply layout_of_Bare in L as (-> & -> & -> & ->).
    apply negb_true_iff, String.eqb_neq in Hl.
    eexists. eexists. split; [reflexivity|]. cbn [DisplayName HashedName].
    split; [apply (parseAddressSetRef_bare _ ownerNamespace); [|exact Hl]|].
    + now apply Split_dotfree.
    + repeat split.
  - apply layout_of_Compact in L as (_ & -> & ->).
    apply negb_true_iff, String.eqb_neq in Hl.
    eexists. eexists. split; [reflexivity|]. cbn [DisplayName HashedName].
    split; [apply (parseAddressSetRef_compact _ ownerNamespace ownerName
                     (elems args)); [|exact Hl]|].
    + apply Split_Join; [discriminate|]. simpl. now rewrite Dns, Dnm, Dargs.
    + repeat split.
  - destruct (elems args) as [|arg rest] eqn:A; [discriminate Hl|].
    eexists. eexists. split; [reflexivity|]. cbn [DisplayName HashedName].
    split; [apply (parseAddressSetRef_tagged _ ownerType (familyTag ipv6)
                     ownerNamespace ownerName arg rest)|].
    + apply Split_Join; [discriminate|].
      cbn [forallb] in *. rewrite Dty, Dns, Dnm, Dargs. now destruct ipv6.
    + unfold components. cbn. destruct ipv6; repeat split.
Qed.

(** X3. On readable references the constructor is injective: two of
    them with the same display name have the same owner type, family,
    namespace, name and sequence of arguments. *)
Theorem newAddressSetRef_injective_on_readable
    (ownerType1 : string) (ipv61 : bool)
    (ownerNamespace1 ownerName1 : string) (args1 : slice)
    (ownerType2 : string) (ipv62 : bool)
    (ownerNamespace2 ownerName2 : string) (args2 : slice)
    (ref1 ref2 : AddressSetRef) :
  readable ownerType1 ipv61 ownerNamespace1 ownerName1 args1 = true ->
  readable ownerType2 ipv62 ownerNamespace2 ownerName2 args2 = true ->
  newAddressSetRef ownerType1 ipv61 ownerNamespace1 ownerName1 args1
  = Some ref1 ->
  newAddressSetRef ownerType2 ipv62 ownerNamespace2 ownerName2 args2
  = Some ref2 ->
  DisplayName ref1 = DisplayName ref2 ->
  ownerType1 = ownerType2 /\ ipv61 = ipv62 /\
  ownerNamespace1 = ownerNamespace2 /\ ownerName1 = ownerName2 /\
  elems args1 = elems args2.
Proof.
  intros R1 R2 N1 N2 E.
  destruct (parse_of_new _ _ _ _ _ R1) as (r1 & p1 & Hn1 & Hp1 & Hc1 & _).
  destruct (parse_of_new _ _ _ _ _ R2) as (r2 & p2 & Hn2 & Hp2 & Hc2 & _).
  assert (r1 = ref1) by congruence. assert (r2 = ref2) by congruence.
  subst r1 r2. rewrite E in Hp1.
  assert (p1 = p2) by congruence. subst p2.
  rewrite Hc1 in Hc2. injection Hc2 as -> -> -> -> ->. repeat split.
Qed.

(** X4. The parser rejects the display name of every tagged reference
    without arguments whose components have no '.': such a name has
    five pieces, one short of the more-than-five the parser asks of a
    name that starts with '.'. *)
Theorem tagged_without_args_unreadable (ownerType : string) (ipv6 : bool)
    (ownerNamespace ownerName : string) (args : slice) :
  dotfree ownerType = true ->
  dotfree ownerNamespace = true ->
  dotfree ownerName = true ->
  layout_of ownerType ipv6 ownerName args = Tagged ->
  elems args = [] ->
  exists ref,
    newAddressSetRef ownerType ipv6 ownerNamespace ownerName args = Some ref /\
    List.length (Split (DisplayName ref) ".") = 5 /\
    parseAddressSetRef (DisplayName ref) = None.
Proof.
  intros Dty Dns Dnm L A. rewrite newAddressSetRef_layout, L, A. cbv zeta.
  eexists. split; [reflexivity|]. cbn [DisplayName].
  assert (E : Split (Join [""; ownerType; familyTag ipv6; ownerNamespace;
                           ownerName] ".") "."
              = [""; ownerType; familyTag ipv6; ownerNamespace; ownerName]).
  { apply Split_Join; [discriminate|].
    cbn [forallb]. rewrite Dty, Dns, Dnm. now destruct ipv6. }
  split; [now rewrite E|].
  apply parseAddressSetRef_None_iff. rewrite E. split; [reflexivity|].
  simpl. lia.
Qed.

(** X5. A [nil] and an empty argument slice give the same display and
    hashed names, except for a "Namespace" owner, not IPv6, with an
    empty owner name: there [nil] gives the bare namespace and the
    empty slice the tagged name ".Namespace.v4.<namespace>.". *)
Theorem nil_and_empty_args (ownerType : string) (ipv6 : bool)
    (ownerNamespace ownerName : string) :
  exists ref0 ref1,
    newAddressSetRef ownerType ipv6 ownerNamespace ownerName nil_slice
    = Some ref0 /\
    newAddressSetRef ownerType ipv6 ownerNamespace ownerName (Some [])
    = Some ref1 /\
    (ownerType = "Namespace" /\ ipv6 = false /\ ownerName = "" ->
       DisplayName ref0 = ownerNamespace /\
       DisplayName ref1
       = Join [""; "Namespace"; "v4"; ownerNamespace; ""] ".") /\
    (~ (ownerType = "Namespace" /\ ipv6 = false /\ ownerName = "") ->
       DisplayName ref0 = DisplayName ref1 /\
       HashedName ref0 = HashedName ref1).
Proof.
  rewrite !newAddressSetRef_layout. cbv zeta. do 2 eexists.
  split; [reflexivity|]. split; [reflexivity|]. cbn [DisplayName HashedName].
  split.
  - intros (-> & -> & ->). split; reflexivity.
  - intros Hn. unfold layout_of. cbn [is_nil elems].
    rewrite andb_false_r, andb_true_r.
    destruct (String.eqb_spec ownerType "Namespace") as [->|_];
      destruct ipv6; destruct (String.eqb_spec ownerName "") as [->|_];
      cbn [andb negb]; try (now destruct Hn);
      destruct (_ =? "NetworkPolicy"); split; reflexivity.
Qed.

(** ** Fields and lines *)

Lemma spaceRune_before_newline (c : ascii) (x rest : string) :
  spaceRune (String c x) = 0 ->
  spaceRune (String c (x ++ newline ++ rest)) = 0.
Proof.
  unfold newline.
  destruct x as [|d [|e x']]; cbn -[Nat.leb Nat.eqb nat_of_ascii];
    change (nat_of_ascii "010") with 10;
    repeat match goal with
           | |- context [(10 =? ?n)%nat] => change (10 =? n)%nat with false
           | |- context [(?n <=? 10)%nat] => change (n <=? 10)%nat with false
           end;
    rewrite ?andb_false_r; cbn [andb orb];
    repeat match goal with
           | |- context [if ?b then _ else _] => destruct b
           end; intros H; try reflexivity; discriminate H.
Qed.

Lemma cutSpaces_not_nil (k : nat) (s : string) : cutSpaces k s <> [].
Proof.
  revert k. induction s as [|c rest IH]; intros k; cbn [cutSpaces];
    [discriminate|].
  destruct k; [|apply IH].
  destruct (spaceRune (String c rest)); [|discriminate].
  destruct (cutSpaces 0 rest); discriminate.
Qed.

Lemma cutSpaces_spaceless (x : string) :
  spaceless x = true -> cutSpaces 0 x = [x].
Proof.
  induction x as [|c x' IH]; [reflexivity|].
  cbn [spaceless]. intros H. apply andb_prop in H as [H0 Hx'].
  apply Nat.eqb_eq in H0. cbn [cutSpaces]. rewrite H0, (IH Hx').
  reflexivity.
Qed.

Lemma cutSpaces_line (x rest : string) :
  spaceless x = true ->
  cutSpaces 0 (x ++ newline ++ rest) = x :: cutSpaces 0 rest.
Proof.
  induction x as [|c x' IH]; [reflexivity|].
  cbn [spaceless]. intros H. apply andb_prop in H as [H0 Hx'].
  apply Nat.eqb_eq in H0.
  change (String c x' ++ newline ++ rest)%string
    with (String c (x' ++ newline ++ rest)).
  cbn [cutSpaces]. rewrite (spaceRune_before_newline _ _ rest H0), (IH Hx').
  reflexivity.
Qed.

(** The fields of lines without white space are the lines. *)
Lemma Fields_lines (lines : list string) :
  forallb (fun x => spaceless x && negb (x =? "")) lines = true ->
  Fields (Join lines newline) = lines.
Proof.
  unfold Fields. induction lines as [|x xs IH]; [reflexivity|].
  cbn [forallb]. intros H. apply andb_prop in H as [Hx Hxs].
  apply andb_prop in Hx as [Hs Hne].
  destruct xs as [|y ys].
  - cbn [Join]. rewrite (cutSpaces_spaceless _ Hs). cbn [filter].
    now rewrite Hne.
  - rewrite Join_cons2, (cutSpaces_line _ _ Hs). cbn [filter].
    rewrite Hne, (IH Hxs). reflexivity.
Qed.

Lemma HasPrefix_name (field : string) :
  HasPrefix field "name=" = true ->
  field = ("name=" ++ string_from 5 field)%string.
Proof.
  unfold HasPrefix.
  destruct field as [|c1 [|c2 [|c3 [|c4 [|c5 rest]]]]]; cbn [prefix];
    repeat match goal with
           | |- context [ascii_dec ?a ?b] => destruct (ascii_dec a b)
           end; try discriminate.
  intros _. subst. reflexivity.
Qed.

(** ** Running programs *)

Lemma exec_bind {W A B : Type} (h : handler W) (p : prog A)
    (f : A -> prog B) (w : W) :
  exec h (bind p f) w =
  let '(a, w1, calls1) := exec h p w in
  let '(b, w2, calls2) := exec h (f a) w1 in
  (b, w2, calls1 ++ calls2).
Proof.
  revert w. induction p as [a | c k IH]; intros w; cbn [bind exec].
  - destruct (exec h (f a) w) as [[b w2] calls2]. reflexivity.
  - destruct (h c w) as [r w1]. rewrite IH.
    destruct (exec h (k r) w1) as [[a w2] calls1].
    destruct (exec h (f a) w2) as [[b w3] calls2]. reflexivity.
Qed.

Lemma exec_eachField {W S : Type} (h : handler W)
    (iteratorFn : AddressSetRef -> S -> prog S) (fields : list string)
    (s : S) (w : W) :
  exec h (eachField iteratorFn fields s) w =
  exec h (eachRef iteratorFn (listed fields) s) w.
Proof.
  revert s w. induction fields as [|field rest IH]; intros s w;
    [reflexivity|].
  cbn [eachField listed]. destruct (HasPrefix field "name="); cbn [negb];
    [|apply IH].
  destruct (parseAddressSetRef (string_from 5 field)) as [ref|]; [|apply IH].
  cbn [eachRef]. rewrite !exec_bind.
  destruct (exec h (iteratorFn ref s) w) as [[s' w1] calls1].
  now rewrite IH.
Qed.

(** ** Walking the address sets *)

Lemma listed_In (fields : list string) (ref : AddressSetRef) :
  In ref (listed fields) ->
  In ("name=" ++ DisplayName ref)%string fields /\
  parseAddressSetRef (DisplayName ref) = Some ref.
Proof.
  induction fields as [|field rest IH]; cbn [listed]; [intros []|].
  destruct (HasPrefix field "name=") eqn:P;
    [|intros H; destruct (IH H); split; [now right | assumption]].
  destruct (parseAddressSetRef (string_from 5 field)) as [ref0|] eqn:E;
    [|intros H; destruct (IH H); split; [now right | assumption]].
  intros [<- | H]; [|destruct (IH H); split; [now right | assumption]].
  destruct (parseAddressSetRef_HashedName_of _ _ E) as [Hd _].
  rewrite Hd. split; [left; now apply HasPrefix_name | exact E].
Qed.

Lemma listed_length (fields : list string) :
  List.length (listed fields) <= List.length fields.
Proof.
  induction fields as [|field rest IH]; cbn [listed List.length]; [lia|].
  destruct (HasPrefix field "name="); [|lia].
  destruct (parseAddressSetRef (string_from 5 field)); cbn [List.length]; lia.
Qed.

Lemma exec_eachRef_note {W : Type} (h : handler W)
    (refs seen : list AddressSetRef) (w : W) :
  exec h (eachRef note refs seen) w = (seen ++ refs, w, []).
Proof.
  revert seen. induction refs as [|ref rest IH]; intros seen;
    cbn [eachRef bind note].
  - now rewrite app_nil_r.
  - rewrite IH, <- app_assoc. reflexivity.
Qed.

Lemma exec_forEachAddressSet {W S : Type} (h : handler W)
    (iteratorFn : AddressSetRef -> S -> prog S) (s : S) (w : W) :
  exec h (forEachAddressSet iteratorFn s) w =
  let (r, w1) := h find_address_sets w in
  match err r with
  | Some e => ((s, Some e), w1, [find_address_sets])
  | None =>
      let '(s', w2, calls) :=
        exec h (eachRef iteratorFn (listed (Fields (stdout r))) s) w1 in
      ((s', None), w2, find_address_sets :: calls)
  end.
Proof.
  unfold forEachAddressSet. cbn [exec]. fold find_address_sets.
  destruct (h find_address_sets w) as [r w1].
  destruct (err r) as [e|]; [reflexivity|].
  rewrite exec_bind, exec_eachField.
  destruct (exec h (eachRef iteratorFn (listed (Fields (stdout r))) s) w1)
    as [[s' w2] calls].
  cbn [exec]. now rewrite app_nil_r.
Qed.

(** X6. [forEachAddressSet] lists the address sets first, with one
    command. When that fails it returns the error at once: the callback
    is not run and its state is as it was. Otherwise it returns [nil],
    whatever the output holds, after running the callback, in the order
    of the output, on the fields that start with "name=" and parse, and
    on nothing else. *)
Theorem forEachAddressSet_runs {W S : Type} (h : handler W)
    (iteratorFn : AddressSetRef -> S -> prog S) (s : S) (w : W) :
  exec h (forEachAddressSet iteratorFn s) w =
  let (r, w1) := h find_address_sets w in
  match err r with
  | Some e => ((s, Some e), w1, [find_address_sets])
  | None =>
      let '(s', w2, calls) :=
        exec h (eachRef iteratorFn (listed (Fields (stdout r))) s) w1 in
      ((s', None), w2, find_address_sets :: calls)
  end.
Proof.
  unfold forEachAddressSet. cbn [exec]. fold find_address_sets.
  destruct (h find_address_sets w) as [r w1].
  destruct (err r) as [e|]; [reflexivity|].
  rewrite exec_bind, exec_eachField.
  destruct (exec h (eachRef iteratorFn (listed (Fields (stdout r))) s) w1)
    as [[s' w2] calls].
  cbn [exec]. now rewrite app_nil_r.
Qed.

(** X7. Every reference [forEachAddressSet] hands to its callback comes
    from a field "name=<display name>" of the output, has a display name
    that is not empty and parses to that very reference, and has the
    digest of its display name as hashed name; there are at most as many
    of them as fields. *)
Theorem forEachAddressSet_hands_out {W : Type} (h : handler W) (w w' : W)
    (seen : list AddressSetRef) (e : option error) (calls : list call) :
  exec h (forEachAddressSet note []) w = ((seen, e), w', calls) ->
  List.length seen
  <= List.length (Fields (stdout (fst (h find_address_sets w)))) /\
  forall ref, In ref seen ->
    In ("name=" ++ DisplayName ref)%string
       (Fields (stdout (fst (h find_address_sets w)))) /\
    DisplayName ref <> "" /\
    parseAddressSetRef (DisplayName ref) = Some ref /\
    HashedName ref = hashForOVN (DisplayName ref).
Proof.
  rewrite exec_forEachAddressSet.
  destruct (h find_address_sets w) as [r w1]. cbn [fst].
  destruct (err r) as [e0|].
  - intros E. injection E as <- _ _ _. split; [cbn; lia | intros ref []].
  - rewrite exec_eachRef_note. cbn [app]. intros E. injection E as <- _ _ _.
    split; [apply listed_length|]. intros ref Hin.
    destruct (listed_In _ _ Hin) as [Hf Hp]. split; [exact Hf|].
    split; [intros H0; rewrite H0 in Hp; discriminate Hp|].
    split; [exact Hp|]. now apply parseAddressSetRef_HashedName_of in Hp.
Qed.

Lemma HasPrefix_name_field (ref : AddressSetRef) :
  HasPrefix (name_field ref) "name=" = true.
Proof.
  apply prefix_correct. unfold name_field.
  destruct (DisplayName ref); reflexivity.
Qed.

Lemma listed_findable (refs : list AddressSetRef) :
  Forall findable refs ->
  exists seen,
    listed (map name_field refs) = seen /\
    map components seen = map components refs /\
    map DisplayName seen = map DisplayName refs /\
    map HashedName seen = map HashedName refs.
Proof.
  induction 1 as [|ref rest Href _ IH]; [exists []; repeat split|].
  destruct IH as (seen & Hl & Hc & Hd & Hh).
  destruct Href as (_ & ty & v6 & ns & nm & args & Hr & Hn).
  destruct (parse_of_new _ _ _ _ _ Hr) as (r0 & ref' & Hn0 & Hp & Hc' & Hd' & Hh').
  assert (r0 = ref) by congruence. subst r0.
  exists (ref' :: seen). cbn [map listed].
  rewrite HasPrefix_name_field.
  change (string_from 5 (name_field ref)) with (DisplayName ref).
  rewrite Hp, Hl. cbn [map]. rewrite Hc, Hd, Hh, Hd', Hh'.
  repeat split. f_equal. rewrite Hc'.
  destruct (newAddressSetRef_DisplayName ty v6 ns nm args)
    as (r1 & Hn1 & Hty & Hv6 & Hns & Hnm & Hargs & _).
  assert (r1 = ref) by congruence. subst r1.
  unfold components. now rewrite Hty, Hv6, Hns, Hnm, Hargs.
Qed.

Lemma Fields_name_fields (refs : list AddressSetRef) :
  Forall findable refs ->
  Fields (Join (map name_field refs) newline) = map name_field refs.
Proof.
  intros H. apply Fields_lines. induction H as [|ref rest Href _ IH];
    [reflexivity|].
  cbn [map forallb]. rewrite IH, andb_true_r.
  destruct Href as (Hs & _).
  change (spaceless (name_field ref)) with (spaceless (DisplayName ref)).
  now rewrite Hs.
Qed.

(** X8. [forEachAddressSet] finds again what the constructor made. When
    the listing succeeds and its output is one line "name=<display
    name>" for each of some references made by the constructor,
    readable and with display names free of white space, the callback
    is run once for each, in that order, on a reference with the same
    components, display name and hashed name, and [nil] is returned. *)
Theorem forEachAddressSet_finds_what_was_made {W : Type} (h : handler W)
    (w w1 : W) (r : result) (refs : list AddressSetRef) :
  Forall findable refs ->
  h find_address_sets w = (r, w1) ->
  err r = None ->
  stdout r = Join (map name_field refs) newline ->
  exists seen,
    map components seen = map components refs /\
    map DisplayName seen = map DisplayName refs /\
    map HashedName seen = map HashedName refs /\
    forall (S : Type) (iteratorFn : AddressSetRef -> S -> prog S) (s : S),
      exec h (forEachAddressSet iteratorFn s) w =
      let '(s', w2, calls) := exec h (eachRef iteratorFn seen s) w1 in
      ((s', None), w2, find_address_sets :: calls).
Proof.
  intros Hrefs Hh Herr Hout.
  destruct (listed_findable refs Hrefs) as (seen & Hl & Hc & Hd & Hhn).
  exists seen. repeat split; try assumption.
  intros S iteratorFn s. rewrite exec_forEachAddressSet, Hh, Herr, Hout.
  now rewrite (Fields_name_fields refs Hrefs), Hl.
Qed.

Lemma exec_eachRef_delete {W : Type} (h : handler W)
    (refs : list AddressSetRef) (w : W) :
  snd (exec h (eachRef (fun ref _ => deleteAddressSet ref) refs tt) w)
  = map (fun ref => destroy_address_set (HashedName ref)) refs.
Proof.
  revert w. induction refs as [|ref rest IH]; intros w; [reflexivity|].
  cbn [eachRef]. rewrite exec_bind. unfold deleteAddressSet at 1.
  cbn [exec]. fold (destroy_address_set (HashedName ref)).
  destruct (h (destroy_address_set (HashedName ref)) w) as [r1 w1].
  specialize (IH w1).
  destruct (exec h (eachRef (fun ref0 _ => deleteAddressSet ref0) rest tt) w1)
    as [[u w2] calls].
  cbn [snd] in *. cbn [app map]. now rewrite IH.
Qed.

(** X9. Deleting from within the walk: with [deleteAddressSet] as the
    callback, [forEachAddressSet] issues after a listing that succeeds
    one "--if-exists destroy address_set <name>" for each field
    "name=<display name>" that parses, in the order of the output, where
    <name> is the digest of that display name; it issues nothing else,
    whatever the commands answer. *)
Theorem forEachAddressSet_delete {W : Type} (h : handler W) (w : W) :
  err (fst (h find_address_sets w)) = None ->
  snd (exec h (forEachAddressSet (fun ref _ => deleteAddressSet ref) tt) w)
  = find_address_sets ::
    map (fun ref => destroy_address_set (hashForOVN (DisplayName ref)))
      (listed (Fields (stdout (fst (h find_address_sets w))))).
Proof.
  rewrite exec_forEachAddressSet.
  destruct (h find_address_sets w) as [r w1]. cbn [fst]. intros ->.
  pose proof (exec_eachRef_delete h (listed (Fields (stdout r))) w1) as H.
  destruct (exec h (eachRef (fun ref _ => deleteAddressSet ref)
                      (listed (Fields (stdout r))) tt) w1)
    as [[u w2] calls].
  cbn [snd] in *. rewrite H. f_equal. apply map_ext_in. intros ref Hin.
  destruct (listed_In _ _ Hin) as [_ Hp].
  apply parseAddressSetRef_HashedName_of in Hp as [_ Hp]. now rewrite Hp.
Qed.

(** X10. [createAddressSet] first looks the set up by its hashed name.
    When the lookup fails it does nothing more. Otherwise it issues
    exactly one more command: when the lookup printed nothing, a
    "create" of the set under its hashed name, with the display name as
    "name" of the external ids and, if any, the addresses; when it
    printed something, a "clear" of the addresses if none is given and
    a "set" of them otherwise. The addresses are written each within
    double quotes, one space between two. *)
Theorem createAddressSet_calls {W : Type} (h : handler W)
    (ref : AddressSetRef) (addresses : list string) (w : W) :
  let lookup :=
    RunOVNNbctl ["--data=bare"; "--no-heading"; "--columns=_uuid"; "find";
                 "address_set"; ("name=" ++ HashedName ref)%string] in
  let ips :=
    (dquote ++ Join addresses (dquote ++ " " ++ dquote) ++ dquote)%string in
  let (r, w1) := h lookup w in
  exists w2 calls,
    exec h (createAddressSet ref addresses) w = (tt, w2, lookup :: calls) /\
    match err r with
    | Some _ => calls = [] /\ w2 = w1
    | None =>
        calls =
        [RunOVNNbctl
           (if stdout r =? "" then
              ["create"; "address_set"; ("name=" ++ HashedName ref)%string;
               ("external-ids:name=" ++ DisplayName ref)%string]
              ++ match addresses with
                 | [] => []
                 | _ :: _ => [("addresses=" ++ ips)%string]
                 end
            else
              match addresses with
              | [] => ["clear"; "address_set"; HashedName ref; "addresses"]
              | _ :: _ =>
                  ["set"; "address_set"; HashedName ref;
                   ("addresses=" ++ ips)%string]
              end)]
    end.
Proof.
  cbv zeta. unfold createAddressSet. cbn [exec].
  destruct (h _ w) as [r w1].
  destruct (err r) as [e|]; [exists w1, []; repeat split|].
  destruct (stdout r =? ""), addresses as [|a rest];
    cbn [negb andb List.length Nat.eqb exec app];
    match goal with
    | |- context [h ?c w1] => destruct (h c w1) as [r2 w2]
    end; exists w2; eexists; split; reflexivity.
Qed.

End AddressSet.

(** ** Gateways *)

(** One turn of the loop of [createGatewaysVIPForGateways], as a run. *)
Lemma exec_createGatewaysVIPForGateways_cons {W : Type} (h : handler W)
    (physicalGateway : string) (rest : list string) (protocol : string)
    (port targetPort : Z) (ips : list string) (w : W) :
  exists (w1 : W) (turn : list call),
    exec h (createGatewaysVIPForGateways (physicalGateway :: rest) protocol
              port targetPort ips) w =
    (let '(e, w2, calls) :=
       exec h (createGatewaysVIPForGateways rest protocol port targetPort
                 ips) w1 in
     (e, w2, get_physical_ip physicalGateway :: turn ++ calls)) /\
    (turn = [] \/
     turn = [find_load_balancer physicalGateway protocol] \/
     exists loadBalancer physicalIP,
       loadBalancer <> "" /\
       turn = [find_load_balancer physicalGateway protocol;
               createLoadBalancerVIP loadBalancer physicalIP port ips
                 targetPort]).
Proof.
  cbn [createGatewaysVIPForGateways]. cbv zeta.
  unfold getGatewayPhysicalIP, getGatewayLoadBalancer.
  cbn [bind exec].
  destruct (h (get_physical_ip physicalGateway) w) as [r1 w1].
  destruct (err r1) as [e1|]; cbn [bind exec].
  { exists w1, []. split; [|now left].
    destruct (exec h _ w1) as [[e w2] calls]. reflexivity. }
  destruct (h (find_load_balancer physicalGateway protocol) w1) as [r2 w2].
  destruct (err r2) as [e2|]; cbn [bind exec].
  { exists w2, [find_load_balancer physicalGateway protocol].
    split; [|right; now left].
    destruct (exec h _ w2) as [[e w3] calls]. reflexivity. }
  destruct (String.eqb_spec (stdout r2) "") as [E|E]; cbn [bind exec].
  { exists w2, [find_load_balancer physicalGateway protocol].
    split; [|right; now left].
    destruct (exec h _ w2) as [[e w3] calls]. reflexivity. }
  destruct (h (createLoadBalancerVIP (stdout r2) (stdout r1) port ips
                 targetPort) w2) as [r3 w3].
  exists w3, [find_load_balancer physicalGateway protocol;
              createLoadBalancerVIP (stdout r2) (stdout r1) port ips
                targetPort].
  split; [|right; right; now exists (stdout r2), (stdout r1)].
  destruct (exec h _ w3) as [[e w4] calls]. reflexivity.
Qed.

Lemma createGatewaysVIPForGateways_none {W : Type} (h : handler W)
    (physicalGateways : list string) (protocol : string)
    (port targetPort : Z) (ips : list string) (w : W) :
  fst (fst (exec h (createGatewaysVIPForGateways physicalGateways protocol
                      port targetPort ips) w)) = None.
Proof.
  revert w. induction physicalGateways as [|g rest IH]; intros w;
    [reflexivity|].
  destruct (exec_createGatewaysVIPForGateways_cons h g rest protocol port
              targetPort ips w) as (w1 & turn & -> & _).
  specialize (IH w1).
  destruct (exec h (createGatewaysVIPForGateways rest protocol port
                      targetPort ips) w1) as [[e w2] calls].
  exact IH.
Qed.

(** X11. [createGatewaysVIPForGateways] never returns an error, and a
    gateway that fails does not stop the others: whatever the commands
    answer, the physical IP of every gateway given is asked for, once
    and in order. *)
Theorem createGatewaysVIPForGateways_tries_all {W : Type} (h : handler W)
    (physicalGateways : list string) (protocol : string)
    (port targetPort : Z) (ips : list string) (w : W) :
  fst (fst (exec h (createGatewaysVIPForGateways physicalGateways protocol
                      port targetPort ips) w)) = None /\
  filter asks_physical_ip
    (snd (exec h (createGatewaysVIPForGateways physicalGateways protocol
                    port targetPort ips) w))
  = map get_physical_ip physicalGateways.
Proof.
  revert w. induction physicalGateways as [|g rest IH]; intros w;
    [split; reflexivity|].
  destruct (exec_createGatewaysVIPForGateways_cons h g rest protocol port
              targetPort ips w) as (w1 & turn & -> & Hturn).
  specialize (IH w1).
  destruct (exec h (createGatewaysVIPForGateways rest protocol port
                      targetPort ips) w1) as [[e w2] calls].
  cbn [fst snd] in *. destruct IH as [-> IH]. split; [reflexivity|].
  cbn [map filter asks_physical_ip get_physical_ip]. f_equal.
  rewrite filter_app, IH.
  destruct Hturn as [-> | [-> | (lb & ip & _ & ->)]]; reflexivity.
Qed.

(** X12. A VIP is created only in a load balancer that was found: every
    call of [createLoadBalancerVIP] that [createGatewaysVIPForGateways]
    makes names a load balancer that is not the empty string, with the
    port, the addresses and the target port it was given; and there is
    at most one such call for each gateway. *)
Theorem createGatewaysVIPForGateways_vips {W : Type} (h : handler W)
    (physicalGateways : list string) (protocol : string)
    (port targetPort : Z) (ips : list string) (w : W) :
  let calls :=
    snd (exec h (createGatewaysVIPForGateways physicalGateways protocol
                   port targetPort ips) w) in
  List.length (filter creates_vip calls) <= List.length physicalGateways /\
  forall loadBalancer vip port' ips' targetPort',
    In (createLoadBalancerVIP loadBalancer vip port' ips' targetPort') calls ->
    loadBalancer <> "" /\ port' = port /\ ips' = ips /\
    targetPort' = targetPort.
Proof.
  cbv zeta. revert w.
  induction physicalGateways as [|g rest IH]; intros w;
    [split; [cbn; lia | intros ? ? ? ? ? []]|].
  destruct (exec_createGatewaysVIPForGateways_cons h g rest protocol port
              targetPort ips w) as (w1 & turn & -> & Hturn).
  specialize (IH w1).
  destruct (exec h (createGatewaysVIPForGateways rest protocol port
                      targetPort ips) w1) as [[e w2] calls].
  cbn [fst snd] in *. destruct IH as [IHn IHc].
  cbn [filter creates_vip get_physical_ip List.length].
  rewrite filter_app, length_app. split.
  - destruct Hturn as [-> | [-> | (lb & ip & _ & ->)]]; cbn; lia.
  - intros lb vip port' ips' targetPort' [Hc | Hc]; [discriminate Hc|].
    apply in_app_or in Hc as [Hc | Hc]; [|now apply (IHc lb vip)].
    destruct Hturn as [-> | [-> | (lb0 & ip0 & Hlb & ->)]].
    + destruct Hc.
    + destruct Hc as [Hc | []]. discriminate Hc.
    + destruct Hc as [Hc | [Hc | []]]; [discriminate Hc|].
      injection Hc as <- <- <- <- <-. now repeat split.
Qed.

(** X13. [createGatewaysVIP] returns the error of the listing of the
    gateways when that fails, after this one command; in every other
    case it returns [nil]. *)
Theorem createGatewaysVIP_error {W : Type} (h : handler W)
    (protocol : string) (port targetPort : Z) (ips : list string) (w : W) :
  match err (fst (h find_gateways w)) with
  | Some e =>
      exec h (createGatewaysVIP protocol port targetPort ips) w
      = (Some e, snd (h find_gateways w), [find_gateways])
  | None =>
      fst (fst (exec h (createGatewaysVIP protocol port targetPort ips) w))
      = None
  end.
Proof.
  unfold createGatewaysVIP, getOvnGateways. cbn [bind exec].
  destruct (h find_gateways w) as [r w1]. cbn [fst snd].
  destruct (err r) as [e|]; [reflexivity|].
  pose proof (createGatewaysVIPForGateways_none h (Fields (stdout r))
                protocol port targetPort ips w1) as H.
  destruct (exec h _ w1) as [[e w2] calls]. exact H.
Qed.

(** X14. [createNodeVIP] never returns an error and works on the router
    "GR_<node>" alone: it asks for its physical IP first, and makes at
    most two more calls. *)
Theorem createNodeVIP_calls {W : Type} (h : handler W)
    (nodeName protocol : string) (port targetPort : Z) (ips : list string)
    (w : W) :
  exists w' calls,
    exec h (createNodeVIP nodeName protocol port targetPort ips) w
    = (None, w', get_physical_ip ("GR_" ++ nodeName) :: calls) /\
    List.length calls <= 2 /\
    forall c, In c calls ->
      c = find_load_balancer ("GR_" ++ nodeName) protocol \/
      creates_vip c = true.
Proof.
  unfold createNodeVIP. cbv zeta.
  destruct (exec_createGatewaysVIPForGateways_cons h ("GR_" ++ nodeName) []
              protocol port targetPort ips w) as (w1 & turn & -> & Hturn).
  cbn [createGatewaysVIPForGateways exec]. rewrite app_nil_r.
  exists w1, turn. split; [reflexivity|].
  destruct Hturn as [-> | [-> | (lb & ip & _ & ->)]]; split;
    try (cbn; lia); intros c Hc; cbn in Hc;
    repeat destruct Hc as [<- | Hc]; try contradiction;
    (now left) || (now right).
Qed.

(** ** Namespaces of the hybrid overlay *)


(** ** Closed instances

    The statements above at closed inputs, with [tagged_digest] for the
    digest where one has to run. *)

(** C1: the round trip is lost on an empty owner namespace. The
    reference of owner type "Namespace", not IPv6, with empty namespace,
    empty name and no argument has components without '.', is in the
    bare layout (so it is not the tagged reference without name and
    arguments), and its display name is the empty string, which the
    parser rejects, whatever the digest. *)
Lemma roundtrip_lost_on_empty_namespace :
  (dotfree "Namespace" && dotfree "" && dotfree ""
   && forallb dotfree (elems nil_slice) = true) /\
  layout_of "Namespace" false "" nil_slice = Bare /\
  (forall hashForOVN : string -> string,
     exists ref,
       newAddressSetRef hashForOVN "Namespace" false "" "" nil_slice
       = Some ref /\
       DisplayName ref = "" /\
       parseAddressSetRef hashForOVN (DisplayName ref) = None).
Proof.
  split; [reflexivity|]. split; [reflexivity|].
  intros hashForOVN. eexists. split; [reflexivity|]. split; reflexivity.
Qed.

(** C4: the display name "." is not the empty string and does not split
    into a single empty piece (it splits into two), and the parser
    rejects it all the same, whatever the digest. *)
Lemma lone_dot_is_rejected :
  "." <> "" /\
  Split "." "." = [""; ""] /\
  (forall hashForOVN : string -> string,
     parseAddressSetRef hashForOVN "." = None).
Proof.
  split; [discriminate|]. split; [reflexivity|]. intros hashForOVN. reflexivity.
Qed.

(** C5: on the empty display name the parser returns [nil], so for no
    digest does its result carry the digest of the display name. *)
Lemma nil_carries_no_HashedName :
  ~ (exists hashForOVN : string -> string,
       option_map HashedName (parseAddressSetRef hashForOVN "")
       = Some (hashForOVN "")).
Proof. intros [hashForOVN H]. discriminate H. Qed.

(** The round trip on the network policy reference of the test. *)
Lemma parse_new_roundtrip_npRef :
  exists ref ref',
    newAddressSetRef tagged_digest "NetworkPolicy" false "testing" "policy"
      (Some ["ingress"; "1"]) = Some ref /\
    parseAddressSetRef tagged_digest (DisplayName ref) = Some ref' /\
    OwnerType ref' = "NetworkPolicy" /\
    IPv6 ref' = false /\
    OwnerNamespace ref' = "testing" /\
    OwnerName ref' = "policy" /\
    elems (Args ref') = elems (Some ["ingress"; "1"]) /\
    DisplayName ref' = DisplayName ref /\
    HashedName ref' = HashedName ref.
Proof.
  apply (parse_new_roundtrip tagged_digest "NetworkPolicy" false "testing"
           "policy" (Some ["ingress"; "1"])); try reflexivity.
  - intros _. discriminate.
  - intros _. discriminate.
Defined.

(** The three rules of the constructor, one reference of the test each. *)
Lemma newAddressSetRef_three_rules_test :
  (exists ref,
     newAddressSetRef tagged_digest "Namespace" false "testing" "" nil_slice
     = Some ref /\ DisplayName ref = "testing") /\
  (exists ref,
     newAddressSetRef tagged_digest "NetworkPolicy" false "testing" "policy"
       (Some ["ingress"; "1"]) = Some ref /\
     DisplayName ref = "testing.policy.ingress.1") /\
  (exists ref,
     newAddressSetRef tagged_digest "Namespace" true "testing" "" nil_slice
     = Some ref /\ DisplayName ref = ".Namespace.v6.testing.").
Proof.
  split; [|split].
  - destruct (newAddressSetRef_three_rules tagged_digest "Namespace" false
                "testing" "" nil_slice) as (ref & Href & Hb & _).
    exists ref. split; [exact Href|]. apply Hb. repeat split.
  - destruct (newAddressSetRef_three_rules tagged_digest "NetworkPolicy" false
                "testing" "policy" (Some ["ingress"; "1"]))
      as (ref & Href & _ & Hc & _).
    exists ref. split; [exact Href|]. apply Hc.
    + intros (H & _). discriminate H.
    + split; reflexivity.
  - destruct (newAddressSetRef_three_rules tagged_digest "Namespace" true
                "testing" "" nil_slice) as (ref & Href & _ & _ & Ht).
    exists ref. split; [exact Href|]. apply Ht.
    + intros (_ & H & _). discriminate H.
    + intros (H & _). discriminate H.
Defined.

(** The three classes of the parser, one display name each. *)
Lemma parseAddressSetRef_classification_test :
  (exists ref,
     parseAddressSetRef tagged_digest ".Namespace.v4.testing..blah.blah"
     = Some ref /\ elems (Args ref) = ["blah"; "blah"]) /\
  (exists ref,
     parseAddressSetRef tagged_digest "testing.policy.ingress.1" = Some ref /\
     OwnerType ref = "NetworkPolicy" /\ elems (Args ref) = ["ingress"; "1"]) /\
  (exists ref,
     parseAddressSetRef tagged_digest "testing" = Some ref /\
     OwnerType ref = "Namespace" /\ elems (Args ref) = []).
Proof.
  split; [|split].
  - destruct (parseAddressSetRef_classification tagged_digest
                ".Namespace.v4.testing..blah.blah") as (Ht & _).
    destruct Ht as (ref & Href & _ & _ & _ & _ & Ha);
      [split; [simpl; lia | reflexivity]|].
    exists ref. split; [exact Href | exact Ha].
  - destruct (parseAddressSetRef_classification tagged_digest
                "testing.policy.ingress.1") as (_ & Hc & _).
    destruct Hc as (ref & Href & Hty & _ & _ & _ & Ha).
    + intros (_ & H). discriminate H.
    + split; [simpl; lia | discriminate].
    + exists ref. split; [exact Href|]. split; [exact Hty | exact Ha].
  - destruct (parseAddressSetRef_classification tagged_digest "testing")
      as (_ & _ & Hb).
    destruct Hb as (ref & Href & Hty & _ & _ & _ & Ha).
    + intros (_ & H). discriminate H.
    + intros (H & _). simpl in H. lia.
    + split; [reflexivity | discriminate].
    + exists ref. split; [exact Href|]. split; [exact Hty | exact Ha].
Defined.

(** A short name with a leading '.' is rejected, a long one is read. *)
Lemma parseAddressSetRef_nil_test :
  parseAddressSetRef tagged_digest ".Namespace.v4" = None /\
  (exists ref,
     parseAddressSetRef tagged_digest ".Namespace.v4.testing..blah.blah"
     = Some ref).
Proof.
  split.
  - apply (parseAddressSetRef_nil tagged_digest ".Namespace.v4").
    split; [reflexivity | simpl; lia].
  - apply (parseAddressSetRef_nil tagged_digest
             ".Namespace.v4.testing..blah.blah").
    right. simpl. lia.
Defined.

(** The hashed name the parser gives the bare namespace of the test. *)
Lemma parseAddressSetRef_HashedName_test :
  exists ref,
    parseAddressSetRef tagged_digest "testing" = Some ref /\
    DisplayName ref = "testing" /\
    HashedName ref = tagged_digest "testing".
Proof.
  eexists. split; [reflexivity|].
  apply (parseAddressSetRef_HashedName tagged_digest "testing"). reflexivity.
Defined.

(** The constructor and the parser agree on the hashed name of the
    network policy reference of the test. *)
Lemma HashedName_of_DisplayName_alone_test :
  exists ref1 ref2,
    newAddressSetRef tagged_digest "NetworkPolicy" false "testing" "policy"
      (Some ["ingress"; "1"]) = Some ref1 /\
    parseAddressSetRef tagged_digest "testing.policy.ingress.1" = Some ref2 /\
    HashedName ref1 = HashedName ref2 /\
    HashedName ref1 = tagged_digest (DisplayName ref1).
Proof.
  do 2 eexists. split; [reflexivity|]. split; [reflexivity|].
  apply (HashedName_of_DisplayName_alone tagged_digest).
  - left. exists "NetworkPolicy", false, "testing", "policy",
      (Some ["ingress"; "1"]). reflexivity.
  - right. exists "testing.policy.ingress.1". reflexivity.
  - reflexivity.
Defined.

(** An unknown family "v5" is read as not IPv6. *)
Lemma parseAddressSetRef_family_v5 :
  exists ref,
    parseAddressSetRef tagged_digest ".Pod.v5.ns.nm.a" = Some ref /\
    (IPv6 ref = true <->
     nth_error (Split ".Pod.v5.ns.nm.a" ".") 2 = Some "v6") /\
    (IPv6 ref = false <->
     nth_error (Split ".Pod.v5.ns.nm.a" ".") 2 <> Some "v6").
Proof.
  apply (parseAddressSetRef_family_unchecked tagged_digest ".Pod.v5.ns.nm.a").
  - simpl. lia.
  - reflexivity.
Defined.

(** The tagged reference of the test that parses has its two arguments. *)
Lemma parseAddressSetRef_tagged_has_args_test :
  5 < List.length (Split ".Namespace.v4.testing..blah.blah" ".") /\
  exists arg rest,
    Some ["blah"; "blah"] = Some (arg :: rest) /\
    arg :: rest = skipn 5 (Split ".Namespace.v4.testing..blah.blah" ".").
Proof.
  apply (parseAddressSetRef_tagged_has_args tagged_digest
           ".Namespace.v4.testing..blah.blah"
           {| OwnerType := "Namespace"; OwnerNamespace := "testing";
              OwnerName := ""; IPv6 := false;
              Args := Some ["blah"; "blah"];
              DisplayName := ".Namespace.v4.testing..blah.blah";
              HashedName :=
                tagged_digest ".Namespace.v4.testing..blah.blah" |}).
  - reflexivity.
  - reflexivity.
Defined.

(** *** Closed instances of the further properties *)

Lemma new_of_parsed_npRef :
  newAddressSetRef tagged_digest "NetworkPolicy" false "testing" "policy"
    (Some ["ingress"; "1"]) = Some npRef.
Proof.
  apply (new_of_parsed tagged_digest "testing.policy.ingress.1" npRef).
  - reflexivity.
  - intros H. discriminate H.
Defined.

Lemma parsed_components_dotfree_nsRefArgs :
  dotfree "Namespace" = true /\ dotfree "testing" = true /\
  dotfree "" = true /\ forallb dotfree ["blah"; "blah"] = true.
Proof.
  apply (parsed_components_dotfree tagged_digest
           ".Namespace.v4.testing..blah.blah" nsRefArgs).
  reflexivity.
Defined.

(** A [nil] and an empty slice of arguments are the same sequence. *)
Lemma newAddressSetRef_injective_on_readable_policy :
  "NetworkPolicy" = "NetworkPolicy" /\ false = false /\
  "testing" = "testing" /\ "policy" = "policy" /\
  elems nil_slice = elems (Some []).
Proof.
  apply (newAddressSetRef_injective_on_readable tagged_digest
           "NetworkPolicy" false "testing" "policy" nil_slice
           "NetworkPolicy" false "testing" "policy" (Some [])
           {| OwnerType := "NetworkPolicy"; OwnerNamespace := "testing";
              OwnerName := "policy"; IPv6 := false; Args := nil_slice;
              DisplayName := "testing.policy";
              HashedName := tagged_digest "testing.policy" |}
           {| OwnerType := "NetworkPolicy"; OwnerNamespace := "testing";
              OwnerName := "policy"; IPv6 := false; Args := Some [];
              DisplayName := "testing.policy";
              HashedName := tagged_digest "testing.policy" |});
    reflexivity.
Defined.

(** The IPv6 namespace reference of the test does not parse. *)
Lemma tagged_without_args_unreadable_nsRef6 :
  exists ref,
    newAddressSetRef tagged_digest "Namespace" true "testing" "" nil_slice
    = Some ref /\
    List.length (Split (DisplayName ref) ".") = 5 /\
    parseAddressSetRef tagged_digest (DisplayName ref) = None.
Proof.
  apply (tagged_without_args_unreadable tagged_digest "Namespace" true
           "testing" "" nil_slice); reflexivity.
Defined.

(** Of the five fields of [listing], two are handed out. *)
Lemma forEachAddressSet_hands_out_listing :
  List.length [npRef; nsRefArgs]
  <= List.length (Fields (stdout (fst (listing find_address_sets tt)))) /\
  forall ref, In ref [npRef; nsRefArgs] ->
    In ("name=" ++ DisplayName ref)%string
       (Fields (stdout (fst (listing find_address_sets tt)))) /\
    DisplayName ref <> "" /\
    parseAddressSetRef tagged_digest (DisplayName ref) = Some ref /\
    HashedName ref = tagged_digest (DisplayName ref).
Proof.
  apply (forEachAddressSet_hands_out tagged_digest listing tt tt
           [npRef; nsRefArgs] None [find_address_sets]).
  reflexivity.
Defined.

Lemma findable_npRef : findable tagged_digest npRef.
Proof.
  split; [reflexivity|].
  exists "NetworkPolicy", false, "testing", "policy", (Some ["ingress"; "1"]).
  split; reflexivity.
Defined.

Lemma findable_nsRefArgs : findable tagged_digest nsRefArgs.
Proof.
  split; [reflexivity|].
  exists "Namespace", false, "testing", "", (Some ["blah"; "blah"]).
  split; reflexivity.
Defined.

Lemma forEachAddressSet_finds_two :
  exists seen,
    map components seen = map components [npRef; nsRefArgs] /\
    map DisplayName seen = map DisplayName [npRef; nsRefArgs] /\
    map HashedName seen = map HashedName [npRef; nsRefArgs] /\
    forall (S : Type) (iteratorFn : AddressSetRef -> S -> prog S) (s : S),
      exec listing_two (forEachAddressSet tagged_digest iteratorFn s) tt =
      let '(s', w2, calls) := exec listing_two (eachRef iteratorFn seen s) tt in
      ((s', None), w2, find_address_sets :: calls).
Proof.
  apply (forEachAddressSet_finds_what_was_made tagged_digest listing_two tt tt
           (fst (listing_two find_address_sets tt)) [npRef; nsRefArgs]).
  - repeat constructor; [apply findable_npRef | apply findable_nsRefArgs].
  - reflexivity.
  - reflexivity.
  - reflexivity.
Defined.

Lemma forEachAddressSet_delete_listing :
  snd (exec listing
         (forEachAddressSet tagged_digest
            (fun ref _ => deleteAddressSet ref) tt) tt)
  = [find_address_sets;
     destroy_address_set (tagged_digest "testing.policy.ingress.1");
     destroy_address_set (tagged_digest ".Namespace.v4.testing..blah.blah")].
Proof.
  apply (forEachAddressSet_delete tagged_digest listing tt). reflexivity.
Defined.
